(** * Authors, books and contracts: a many-to-many relation through a registry

    A shallow embedding of [lib/many_to_many.py].  The three classes keep a
    class-level list [all] of every instance built so far, and the
    relationship helpers filter [Contract.all] instead of keeping back
    pointers.  Objects are addresses into a heap, attribute assignment goes
    through the validating property setters, and a failed validation raises
    [Exception] with a message naming the field. *)

From Stdlib Require Import ZArith.
From stdpp Require Import base option list gmap strings countable.

Local Open Scope Z_scope.
Local Open Scope string_scope.
Local Open Scope list_scope.

(** ** Python values *)

(** An object is known by its address: [is] compares addresses. *)
Definition addr := nat.

(** The values the module can be handed: [None], booleans, integers,
    strings, and references to instances.  [bool] is kept apart from [int]
    because Python does: [True] is an [int] for [isinstance], but it is not
    the object [1].  Other built-in kinds (floats, lists, ...) would fail
    every check of the module the way [None] does and are left out. *)
Inductive value : Type :=
  | VNone
  | VBool (b : bool)
  | VInt (z : Z)
  | VStr (s : string)
  | VRef (a : addr).

#[global] Instance value_eq_dec : EqDecision value.
Proof. solve_decision. Defined.

Definition value_to_sum (v : value) : unit + bool + Z + string + nat :=
  match v with
  | VNone => inl (inl (inl (inl tt)))
  | VBool b => inl (inl (inl (inr b)))
  | VInt z => inl (inl (inr z))
  | VStr s => inl (inr s)
  | VRef a => inr a
  end.

Definition value_of_sum (x : unit + bool + Z + string + nat) : value :=
  match x with
  | inl (inl (inl (inl _))) => VNone
  | inl (inl (inl (inr b))) => VBool b
  | inl (inl (inr z)) => VInt z
  | inl (inr s) => VStr s
  | inr a => VRef a
  end.

#[global] Instance value_countable : Countable value.
Proof.
  apply (inj_countable' value_to_sum value_of_sum).
  intros []; reflexivity.
Defined.

(** ** Classes *)

(** The three classes of the module, [object], and classes a client derives
    from them with [class name(base): pass]: one base, nothing overridden.
    Classes derived from [str] or [int] are not represented. *)
Inductive pyclass : Type :=
  | ClsObject
  | ClsAuthor
  | ClsBook
  | ClsContract
  | ClsUser (name : string) (base : pyclass).

#[global] Instance pyclass_eq_dec : EqDecision pyclass.
Proof. solve_decision. Defined.

Fixpoint issubclass (c target : pyclass) : bool :=
  bool_decide (c = target) ||
  match c with
  | ClsObject => false
  | ClsUser _ base => issubclass base target
  | ClsAuthor | ClsBook | ClsContract => bool_decide (target = ClsObject)
  end.

(** What [isinstance] is asked in this module: [str], [int], or one of the
    classes. *)
Inductive pytype : Type :=
  | str
  | int
  | cls (c : pyclass).

(** ** Heap and registries *)

(** An instance: its class and its [__dict__]. *)
Record object : Type := Object {
  ob_type : pyclass;
  ob_dict : gmap string value
}.

(** The interpreter state the module touches: the heap, and the three class
    attributes [Author.all], [Book.all], [Contract.all]. *)
Record state : Type := State {
  heap : list object;
  Author_all : list addr;
  Book_all : list addr;
  Contract_all : list addr
}.

(** At import time the three registries are empty lists. *)
Definition initial : state :=
  {| heap := []; Author_all := []; Book_all := []; Contract_all := [] |}.

Definition type_of (h : list object) (a : addr) : option pyclass :=
  ob_type <$> h !! a.

Definition attr_of (h : list object) (a : addr) (name : string) : option value :=
  h !! a ≫= λ o, ob_dict o !! name.

(** [isinstance(v, t)] against the heap [h].  [bool] is a subclass of
    [int]. *)
Definition isinstance_in (h : list object) (v : value) (t : pytype) : bool :=
  match t, v with
  | str, VStr _ => true
  | int, (VInt _ | VBool _) => true
  | cls c, VRef a =>
      match type_of h a with
      | Some k => issubclass k c
      | None => false
      end
  | _, _ => false
  end.

(** [v is w].  The objects compared with [is] in this module are instances;
    the singletons are identical to themselves; whether two equal numbers or
    strings are one object is left to the interpreter, and they are taken as
    distinct here. *)
Definition py_is (v w : value) : bool :=
  match v, w with
  | VRef a, VRef b => bool_decide (a = b)
  | VNone, VNone => true
  | VBool a, VBool b => bool_decide (a = b)
  | _, _ => false
  end.

(** The integer a number stands for. *)
Definition int_of (v : value) : option Z :=
  match v with
  | VInt z => Some z
  | VBool b => Some (if b then 1 else 0)
  | _ => None
  end.

(** [v == w] for the built-in values: numbers compare by value across [bool]
    and [int], strings character by character, instances (no [__eq__] is
    defined in the module) by identity. *)
Definition py_eq (v w : value) : bool :=
  match int_of v, int_of w with
  | Some x, Some y => bool_decide (x = y)
  | _, _ => bool_decide (v = w)
  end.

(** ** Exceptions and the state monad *)

Inductive exn : Type :=
  | Exception (msg : string)
  | AttributeError (attr : string)
  | TypeError (msg : string).

Inductive outcome (A : Type) : Type :=
  | Returns (a : A)
  | Raises (e : exn).
Arguments Returns {A} a.
Arguments Raises {A} e.

(** A statement runs in a state and either returns or raises; what it wrote
    before raising stays written. *)
Definition M (A : Type) : Type := state → outcome A * state.

#[global] Instance M_ret : MRet M := λ A a s, (Returns a, s).

#[global] Instance M_bind : MBind M := λ A B f m s,
  match m s with
  | (Returns a, s') => f a s'
  | (Raises e, s') => (Raises e, s')
  end.

Definition raise {A : Type} (e : exn) : M A := λ s, (Raises e, s).

Definition result {A : Type} (m : M A) (s : state) : outcome A := fst (m s).
Definition after {A : Type} (m : M A) (s : state) : state := snd (m s).

(** [for x in l] collecting the elements that pass the test, and collecting
    the images. *)
Fixpoint filterM {A : Type} (p : A → M bool) (l : list A) : M (list A) :=
  match l with
  | [] => mret []
  | x :: l' =>
      b ← p x;
      r ← filterM p l';
      mret (if b : bool then x :: r else r)
  end.

Fixpoint mapM {A B : Type} (f : A → M B) (l : list A) : M (list B) :=
  match l with
  | [] => mret []
  | x :: l' =>
      y ← f x;
      r ← mapM f l';
      mret (y :: r)
  end.

Fixpoint foldM {A B : Type} (f : B → A → M B) (acc : B) (l : list A) : M B :=
  match l with
  | [] => mret acc
  | x :: l' =>
      acc' ← f acc x;
      foldM f acc' l'
  end.

(** ** Primitive statements *)

(** [object.__new__(c)]: a fresh instance with an empty [__dict__]. *)
Definition alloc (c : pyclass) : M addr := λ s,
  (Returns (length (heap s)),
   {| heap := heap s ++ [Object c ∅];
      Author_all := Author_all s;
      Book_all := Book_all s;
      Contract_all := Contract_all s |}).

(** [self.<name>] on the instance dictionary. *)
Definition getattr (self : addr) (name : string) : M value := λ s,
  match attr_of (heap s) self name with
  | Some v => (Returns v, s)
  | None => (Raises (AttributeError name), s)
  end.

(** [self.<name> = v] on the instance dictionary.  An address outside the
    heap denotes no object; the statement is given the reading of a failed
    attribute access there. *)
Definition setattr (self : addr) (name : string) (v : value) : M unit := λ s,
  match heap s !! self with
  | Some o =>
      (Returns tt,
       {| heap := <[self := Object (ob_type o) (<[name := v]> (ob_dict o))]> (heap s);
          Author_all := Author_all s;
          Book_all := Book_all s;
          Contract_all := Contract_all s |})
  | None => (Raises (AttributeError name), s)
  end.

Definition isinstance (v : value) (t : pytype) : M bool := λ s,
  (Returns (isinstance_in (heap s) v t), s).

Definition read {A : Type} (f : state → A) : M A := λ s, (Returns (f s), s).

Definition Author_all_append (a : addr) : M unit := λ s,
  (Returns tt,
   {| heap := heap s;
      Author_all := Author_all s ++ [a];
      Book_all := Book_all s;
      Contract_all := Contract_all s |}).

Definition Book_all_append (a : addr) : M unit := λ s,
  (Returns tt,
   {| heap := heap s;
      Author_all := Author_all s;
      Book_all := Book_all s ++ [a];
      Contract_all := Contract_all s |}).

Definition Contract_all_append (a : addr) : M unit := λ s,
  (Returns tt,
   {| heap := heap s;
      Author_all := Author_all s;
      Book_all := Book_all s;
      Contract_all := Contract_all s ++ [a] |}).

(** [x + y] as [sum] uses it: numbers add as integers, strings concatenate,
    anything else is a [TypeError]. *)
Definition py_add (x y : value) : M value :=
  match int_of x, int_of y with
  | Some a, Some b => mret (VInt (a + b))
  | _, _ =>
      match x, y with
      | VStr a, VStr b => mret (VStr (a ++ b)%string)
      | _, _ => raise (TypeError "unsupported operand type(s) for +")
      end
  end.

(** ** class Contract *)

Module Contract.

(** The property getters. *)
Definition author (self : addr) : M value := getattr self "_author".
Definition book (self : addr) : M value := getattr self "_book".
Definition date (self : addr) : M value := getattr self "_date".
Definition royalties (self : addr) : M value := getattr self "_royalties".

(** The property setters: validate, then store. *)
Definition author_setter (self : addr) (value : value) : M unit :=
  ok ← isinstance value (cls ClsAuthor);
  if negb ok then raise (Exception "Contract.author must be an Author")
  else setattr self "_author" value.

Definition book_setter (self : addr) (value : value) : M unit :=
  ok ← isinstance value (cls ClsBook);
  if negb ok then raise (Exception "Contract.book must be a Book")
  else setattr self "_book" value.

Definition date_setter (self : addr) (value : value) : M unit :=
  ok ← isinstance value str;
  if negb ok then raise (Exception "Contract.date must be a str")
  else setattr self "_date" value.

Definition royalties_setter (self : addr) (value : value) : M unit :=
  ok ← isinstance value int;
  if negb ok then raise (Exception "Contract.royalties must be an int")
  else setattr self "_royalties" value.

Definition __init__ (self : addr) (author book date royalties : value) : M unit :=
  author_setter self author;;
  book_setter self book;;
  date_setter self date;;
  royalties_setter self royalties;;
  Contract_all_append self.

(** The call [k(author, book, date, royalties)] for [k] the class
    [Contract] or a class derived from it: a fresh instance is
    initialised and, when [__init__] returns, handed back. *)
Definition create (k : pyclass) (author book date royalties : value) : M addr :=
  self ← alloc k;
  __init__ self author book date royalties;;
  mret self.

(** [Contract(author, book, date, royalties)]. *)
Definition new (author book date royalties : value) : M addr :=
  create ClsContract author book date royalties.

(** The class method; [cls.all] is [Contract.all] for every class derived
    from [Contract]. *)
Definition contracts_by_date (date : value) : M (list addr) :=
  all ← read Contract_all;
  filterM (λ c, d ← Contract.date c; mret (py_eq d date)) all.

End Contract.

(** ** class Author *)

Module Author.

Definition name (self : addr) : M value := getattr self "_name".

Definition name_setter (self : addr) (value : value) : M unit :=
  ok ← isinstance value str;
  if negb ok then raise (Exception "Author.name must be a string")
  else setattr self "_name" value.

Definition __init__ (self : addr) (name : value) : M unit :=
  name_setter self name;;
  Author_all_append self.

Definition create (k : pyclass) (name : value) : M addr :=
  self ← alloc k;
  __init__ self name;;
  mret self.

(** [Author(name)]. *)
Definition new (name : value) : M addr := create ClsAuthor name.

Definition contracts (self : addr) : M (list addr) :=
  all ← read Contract_all;
  filterM (λ c, a ← Contract.author c; mret (py_is a (VRef self))) all.

(** [list({c.book for c in self.contracts()})].  The order in which
    Python lists a set is not modelled: the list below is one listing of
    the set, and only its elements are meant. *)
Definition books (self : addr) : M (list value) :=
  cs ← contracts self;
  bs ← mapM Contract.book cs;
  mret (elements (list_to_set bs : gset value)).

Definition sign_contract (self : addr) (book date royalties : value) : M addr :=
  Contract.new (VRef self) book date royalties.

(** [sum] starts from the integer [0] and adds the royalties as the
    generator yields them. *)
Definition total_royalties (self : addr) : M value :=
  cs ← contracts self;
  foldM (λ acc c, r ← Contract.royalties c; py_add acc r) (VInt 0) cs.

End Author.

(** ** class Book *)

Module Book.

Definition title (self : addr) : M value := getattr self "_title".

Definition title_setter (self : addr) (value : value) : M unit :=
  ok ← isinstance value str;
  if negb ok then raise (Exception "Book.title must be a string")
  else setattr self "_title" value.

Definition __init__ (self : addr) (title : value) : M unit :=
  title_setter self title;;
  Book_all_append self.

Definition create (k : pyclass) (title : value) : M addr :=
  self ← alloc k;
  __init__ self title;;
  mret self.

(** [Book(title)]. *)
Definition new (title : value) : M addr := create ClsBook title.

Definition contracts (self : addr) : M (list addr) :=
  all ← read Contract_all;
  filterM (λ c, b ← Contract.book c; mret (py_is b (VRef self))) all.

Definition authors (self : addr) : M (list value) :=
  cs ← contracts self;
  as_ ← mapM Contract.author cs;
  mret (elements (list_to_set as_ : gset value)).

End Book.

(** ** The scenario of the lab's tests *)

Definition scenario : M (addr * addr * addr * addr * addr) :=
  jo ← Author.new (VStr "Jo");
  li ← Author.new (VStr "Li");
  bookX ← Book.new (VStr "X");
  c1 ← Author.sign_contract jo (VRef bookX) (VStr "2020-01-01") (VInt 100);
  c2 ← Author.sign_contract li (VRef bookX) (VStr "2020-01-01") (VInt 200);
  mret (jo, li, bookX, c1, c2).

Definition after_scenario : state := after scenario initial.

(** ** Well-formed states *)

(** What every registered instance looks like once its [__init__] has
    returned: the attributes its setters wrote are there and hold values the
    setters accept. *)
Definition contract_ok (h : list object) (c : addr) : bool :=
  match type_of h c, attr_of h c "_author", attr_of h c "_book",
        attr_of h c "_date", attr_of h c "_royalties" with
  | Some k, Some a, Some b, Some d, Some r =>
      issubclass k ClsContract
      && isinstance_in h a (cls ClsAuthor)
      && isinstance_in h b (cls ClsBook)
      && isinstance_in h d str
      && isinstance_in h r int
  | _, _, _, _, _ => false
  end.

Definition author_ok (h : list object) (a : addr) : bool :=
  match type_of h a, attr_of h a "_name" with
  | Some k, Some n => issubclass k ClsAuthor && isinstance_in h n str
  | _, _ => false
  end.

Definition book_ok (h : list object) (b : addr) : bool :=
  match type_of h b, attr_of h b "_title" with
  | Some k, Some t => issubclass k ClsBook && isinstance_in h t str
  | _, _ => false
  end.

Definition wf (s : state) : bool :=
  forallb (contract_ok (heap s)) (Contract_all s)
  && forallb (author_ok (heap s)) (Author_all s)
  && forallb (book_ok (heap s)) (Book_all s).

(** ** Auxiliary notions for the statements *)

(** The state with another heap and the same registries. *)
Definition set_heap (s : state) (h : list object) : state :=
  {| heap := h;
     Author_all := Author_all s;
     Book_all := Book_all s;
     Contract_all := Contract_all s |}.

(** The dictionary of a contract whose four setters have run. *)
Definition contract_dict (a b d r : value) : gmap string value :=
  <["_royalties" := r]> (<["_date" := d]> (<["_book" := b]> (<["_author" := a]> ∅))).

(** The fields of a registered contract, with the kinds the setters
    enforce. *)
Record contract_at (h : list object) (c : addr) (a b : addr) (d : string)
    (r : value) : Prop := {
  ca_type : isinstance_in h (VRef c) (cls ClsContract) = true;
  ca_author : attr_of h c "_author" = Some (VRef a);
  ca_book : attr_of h c "_book" = Some (VRef b);
  ca_date : attr_of h c "_date" = Some (VStr d);
  ca_royalties : attr_of h c "_royalties" = Some r;
  ca_author_type : isinstance_in h (VRef a) (cls ClsAuthor) = true;
  ca_book_type : isinstance_in h (VRef b) (cls ClsBook) = true;
  ca_royalties_type : isinstance_in h r int = true
}.

(** The integer value of a contract's royalties, [0] where there is none. *)
Definition royalty_of (h : list object) (c : addr) : Z :=
  default 0 (attr_of h c "_royalties" ≫= int_of).

Definition Zsum (l : list Z) : Z := foldr Z.add 0 l.

(** The kind of value each attribute of the module is validated against. *)
Definition field_type (name : string) : option pytype :=
  if decide (name = "_author") then Some (cls ClsAuthor)
  else if decide (name = "_book") then Some (cls ClsBook)
  else if decide (name = "_date") then Some str
  else if decide (name = "_royalties") then Some int
  else if decide (name = "_name") then Some str
  else if decide (name = "_title") then Some str
  else None.

Definition store (h : list object) (self : addr) (o : object) (name : string)
    (v : value) : list object :=
  <[self := Object (ob_type o) (<[name := v]> (ob_dict o))]> h.

(** ** Reachable states *)

(** What a client can do to the state through the module: build instances
    of the three classes or of classes derived from them, and assign to the
    validated attributes.  The queries change nothing. *)
Inductive step (s : state) : state → Prop :=
  | step_Author (k : pyclass) (v : value) :
      issubclass k ClsAuthor = true → step s (after (Author.create k v) s)
  | step_Book (k : pyclass) (v : value) :
      issubclass k ClsBook = true → step s (after (Book.create k v) s)
  | step_Contract (k : pyclass) (a b d r : value) :
      issubclass k ClsContract = true → step s (after (Contract.create k a b d r) s)
  | step_name (self : addr) (v : value) :
      step s (after (Author.name_setter self v) s)
  | step_title (self : addr) (v : value) :
      step s (after (Book.title_setter self v) s)
  | step_author (self : addr) (v : value) :
      step s (after (Contract.author_setter self v) s)
  | step_book (self : addr) (v : value) :
      step s (after (Contract.book_setter self v) s)
  | step_date (self : addr) (v : value) :
      step s (after (Contract.date_setter self v) s)
  | step_royalties (self : addr) (v : value) :
      step s (after (Contract.royalties_setter self v) s).

Definition reachable : state → Prop := rtc step initial.

(** A client's [class Novelist(Author): pass] and [class Novel(Book): pass],
    with one instance of each. *)
Definition derived_scenario : M (addr * addr) :=
  a ← Author.create (ClsUser "Novelist" ClsAuthor) (VStr "Jo");
  b ← Book.create (ClsUser "Novel" ClsBook) (VStr "X");
  mret (a, b).

Definition after_derived : state := after derived_scenario initial.

(** ** Notions for the further properties *)

(** The assignment [set] on a live instance went through: [get] now gives
    [v], the registries and the classes of the instances are what they
    were, and so is every attribute but the one assigned. *)
Definition assigns (set : M unit) (get : M value) (self : addr) (name : string)
    (v : value) (s : state) : Prop :=
  ∃ s',
    set s = (Returns tt, s')
    ∧ get s' = (Returns v, s')
    ∧ Author_all s' = Author_all s
    ∧ Book_all s' = Book_all s
    ∧ Contract_all s' = Contract_all s
    ∧ (∀ x, type_of (heap s') x = type_of (heap s) x)
    ∧ (∀ x n, ¬ (x = self ∧ n = name) →
              attr_of (heap s') x n = attr_of (heap s) x n).

(** The six queries of the module give the same answers in [s'] as in
    [s]. *)
Definition same_answers (s s' : state) : Prop :=
  ∀ (x : addr) (d : string),
    result (Author.contracts x) s' = result (Author.contracts x) s
    ∧ result (Author.books x) s' = result (Author.books x) s
    ∧ result (Author.total_royalties x) s' = result (Author.total_royalties x) s
    ∧ result (Book.contracts x) s' = result (Book.contracts x) s
    ∧ result (Book.authors x) s' = result (Book.authors x) s
    ∧ result (Contract.contracts_by_date (VStr d)) s'
      = result (Contract.contracts_by_date (VStr d)) s.

(** * Reasoning about statements *)

Lemma bind_run {A B : Type} (m : M A) (f : A → M B) (s : state) :
  (m ≫= f) s =
  match m s with
  | (Returns a, s') => f a s'
  | (Raises e, s') => (Raises e, s')
  end.
Proof. reflexivity. Qed.

Lemma bind_returns {A B : Type} (m : M A) (f : A → M B) (s s' : state) (a : A) :
  m s = (Returns a, s') → (m ≫= f) s = f a s'.
Proof. intros H. rewrite bind_run, H. reflexivity. Qed.

Lemma ret_run {A : Type} (a : A) (s : state) : mret (M := M) a s = (Returns a, s).
Proof. reflexivity. Qed.

(** A comprehension whose test only reads is a filter. *)
Lemma filterM_pure {A : Type} (p : A → M bool) (P : A → Prop)
    `{!∀ x, Decision (P x)} (l : list A) (s : state) :
  (∀ x, x ∈ l → p x s = (Returns (bool_decide (P x)), s)) →
  filterM p l s = (Returns (filter P l), s).
Proof.
  induction l as [|x l IH]; intros Hp; [reflexivity|].
  cbn [filterM].
  rewrite (bind_returns _ _ _ _ _ (Hp x (list_elem_of_here x l))).
  rewrite (bind_returns _ _ _ _ _ (IH (λ y Hy, Hp y (list_elem_of_further _ _ _ Hy)))).
  rewrite ret_run, filter_cons.
  destruct (decide (P x)) as [HP|HP].
  - rewrite bool_decide_eq_true_2 by assumption. reflexivity.
  - rewrite bool_decide_eq_false_2 by assumption. reflexivity.
Qed.

Lemma mapM_pure {A B : Type} (f : A → M B) (g : A → B) (l : list A) (s : state) :
  (∀ x, x ∈ l → f x s = (Returns (g x), s)) →
  mapM f l s = (Returns (g <$> l), s).
Proof.
  induction l as [|x l IH]; intros Hf; [reflexivity|].
  cbn [mapM].
  rewrite (bind_returns _ _ _ _ _ (Hf x (list_elem_of_here x l))).
  rewrite (bind_returns _ _ _ _ _ (IH (λ y Hy, Hf y (list_elem_of_further _ _ _ Hy)))).
  reflexivity.
Qed.

(** ** The heap under allocation *)

Lemma lookup_snoc (h : list object) (o : object) : (h ++ [o]) !! length h = Some o.
Proof. rewrite lookup_app_r by lia. rewrite Nat.sub_diag. reflexivity. Qed.

Lemma insert_snoc (h : list object) (o o' : object) :
  <[length h := o']> (h ++ [o]) = h ++ [o'].
Proof. rewrite insert_app_r_alt by lia. rewrite Nat.sub_diag. reflexivity. Qed.

Lemma type_of_lt (h : list object) (a : addr) (k : pyclass) :
  type_of h a = Some k → (a < length h)%nat.
Proof.
  unfold type_of. intros H. apply fmap_Some in H as (o & Ho & _).
  eapply lookup_lt_Some, Ho.
Qed.

Lemma type_of_snoc (h : list object) (o : object) (a : addr) :
  type_of (h ++ [o]) a =
  if decide (a = length h) then Some (ob_type o) else type_of h a.
Proof.
  unfold type_of. destruct (decide (a = length h)) as [->|Hne].
  - rewrite lookup_snoc. reflexivity.
  - destruct (decide (a < length h)%nat) as [Hlt|Hge].
    + rewrite lookup_app_l by assumption. reflexivity.
    + rewrite !(lookup_ge_None_2) by (rewrite ?length_app; simpl; lia).
      reflexivity.
Qed.

Lemma attr_of_snoc_old (h : list object) (o : object) (a : addr) (name : string) :
  (a < length h)%nat → attr_of (h ++ [o]) a name = attr_of h a name.
Proof. intros Hlt. unfold attr_of. rewrite lookup_app_l by assumption. reflexivity. Qed.

Lemma attr_of_snoc_new (h : list object) (o : object) (name : string) :
  attr_of (h ++ [o]) (length h) name = ob_dict o !! name.
Proof. unfold attr_of. rewrite lookup_snoc. reflexivity. Qed.

Lemma attr_of_lt (h : list object) (a : addr) (name : string) (v : value) :
  attr_of h a name = Some v → (a < length h)%nat.
Proof.
  unfold attr_of. intros H. apply bind_Some in H as (o & Ho & _).
  eapply lookup_lt_Some, Ho.
Qed.

(** A class derived from [Contract] is derived neither from [Author] nor
    from [Book]: there is single inheritance only. *)
Lemma issubclass_Contract_not_Author (k : pyclass) :
  issubclass k ClsContract = true → issubclass k ClsAuthor = false.
Proof.
  induction k as [| | | |n b IH]; simpl; try discriminate; try reflexivity.
  exact IH.
Qed.

Lemma issubclass_Contract_not_Book (k : pyclass) :
  issubclass k ClsContract = true → issubclass k ClsBook = false.
Proof.
  induction k as [| | | |n b IH]; simpl; try discriminate; try reflexivity.
  exact IH.
Qed.

(** A fresh instance does not change the answer of [isinstance] unless it
    is itself of the class asked for. *)
Lemma isinstance_snoc_other (h : list object) (o : object) (v : value) (t : pytype) :
  (∀ c, t = cls c → issubclass (ob_type o) c = false) →
  isinstance_in (h ++ [o]) v t = isinstance_in h v t.
Proof.
  intros Hc. destruct t as [| |c], v as [|b|z|x|a]; try reflexivity.
  simpl. rewrite type_of_snoc.
  destruct (decide (a = length h)) as [->|Hne]; [|reflexivity].
  rewrite (Hc c eq_refl).
  destruct (type_of h (length h)) as [k|] eqn:Hk; [|reflexivity].
  apply type_of_lt in Hk. lia.
Qed.

(** [isinstance] never stops holding when the heap grows. *)
Lemma isinstance_snoc_mono (h : list object) (o : object) (v : value) (t : pytype) :
  isinstance_in h v t = true → isinstance_in (h ++ [o]) v t = true.
Proof.
  destruct t as [| |c], v as [|b|z|x|a]; try (intros; assumption).
  simpl. rewrite type_of_snoc.
  destruct (type_of h a) as [k|] eqn:Hk; [|discriminate].
  apply type_of_lt in Hk.
  destruct (decide (a = length h)) as [->|Hne]; [lia|]. intros; assumption.
Qed.

(** ** Construction, step by step *)

Lemma setattr_snoc (h : list object) (k : pyclass) (dct : gmap string value)
    (name : string) (v : value) (A B C : list addr) :
  setattr (length h) name v (State (h ++ [Object k dct]) A B C) =
  (Returns tt, State (h ++ [Object k (<[name := v]> dct)]) A B C).
Proof.
  unfold setattr. simpl. rewrite lookup_snoc. simpl. rewrite insert_snoc.
  reflexivity.
Qed.

(** A validating setter run on the instance under construction. *)
Ltac setter_snoc :=
  intros; rewrite bind_run; unfold isinstance; cbv beta iota; cbn [heap];
  match goal with
  | |- context [isinstance_in ?h ?v ?t] => destruct (isinstance_in h v t)
  end; cbn [negb]; cbv iota; [apply setattr_snoc | reflexivity].

Section setters_on_fresh.
Variables (h : list object) (k : pyclass) (dct : gmap string value).
Variables (v : value) (A B C : list addr).

Lemma Contract_author_setter_snoc :
  Contract.author_setter (length h) v (State (h ++ [Object k dct]) A B C) =
  if isinstance_in (h ++ [Object k dct]) v (cls ClsAuthor)
  then (Returns tt, State (h ++ [Object k (<["_author" := v]> dct)]) A B C)
  else (Raises (Exception "Contract.author must be an Author"),
        State (h ++ [Object k dct]) A B C).
Proof. unfold Contract.author_setter. setter_snoc. Qed.

Lemma Contract_book_setter_snoc :
  Contract.book_setter (length h) v (State (h ++ [Object k dct]) A B C) =
  if isinstance_in (h ++ [Object k dct]) v (cls ClsBook)
  then (Returns tt, State (h ++ [Object k (<["_book" := v]> dct)]) A B C)
  else (Raises (Exception "Contract.book must be a Book"),
        State (h ++ [Object k dct]) A B C).
Proof. unfold Contract.book_setter. setter_snoc. Qed.

Lemma Contract_date_setter_snoc :
  Contract.date_setter (length h) v (State (h ++ [Object k dct]) A B C) =
  if isinstance_in (h ++ [Object k dct]) v str
  then (Returns tt, State (h ++ [Object k (<["_date" := v]> dct)]) A B C)
  else (Raises (Exception "Contract.date must be a str"),
        State (h ++ [Object k dct]) A B C).
Proof. unfold Contract.date_setter. setter_snoc. Qed.

Lemma Contract_royalties_setter_snoc :
  Contract.royalties_setter (length h) v (State (h ++ [Object k dct]) A B C) =
  if isinstance_in (h ++ [Object k dct]) v int
  then (Returns tt, State (h ++ [Object k (<["_royalties" := v]> dct)]) A B C)
  else (Raises (Exception "Contract.royalties must be an int"),
        State (h ++ [Object k dct]) A B C).
Proof. unfold Contract.royalties_setter. setter_snoc. Qed.

Lemma Author_name_setter_snoc :
  Author.name_setter (length h) v (State (h ++ [Object k dct]) A B C) =
  if isinstance_in (h ++ [Object k dct]) v str
  then (Returns tt, State (h ++ [Object k (<["_name" := v]> dct)]) A B C)
  else (Raises (Exception "Author.name must be a string"),
        State (h ++ [Object k dct]) A B C).
Proof. unfold Author.name_setter. setter_snoc. Qed.

Lemma Book_title_setter_snoc :
  Book.title_setter (length h) v (State (h ++ [Object k dct]) A B C) =
  if isinstance_in (h ++ [Object k dct]) v str
  then (Returns tt, State (h ++ [Object k (<["_title" := v]> dct)]) A B C)
  else (Raises (Exception "Book.title must be a string"),
        State (h ++ [Object k dct]) A B C).
Proof. unfold Book.title_setter. setter_snoc. Qed.

End setters_on_fresh.

(** The whole of [k(author, book, date, royalties)], for [k] derived from
    [Contract]: where it stops and what it leaves behind. *)
Lemma Contract_create_run (k : pyclass) (a b d r : value) (s : state) :
  issubclass k ClsContract = true →
  Contract.create k a b d r s =
  let h := heap s in
  if negb (isinstance_in h a (cls ClsAuthor)) then
    (Raises (Exception "Contract.author must be an Author"),
     set_heap s (h ++ [Object k ∅]))
  else if negb (isinstance_in h b (cls ClsBook)) then
    (Raises (Exception "Contract.book must be a Book"),
     set_heap s (h ++ [Object k (<["_author" := a]> ∅)]))
  else if negb (isinstance_in h d str) then
    (Raises (Exception "Contract.date must be a str"),
     set_heap s (h ++ [Object k (<["_book" := b]> (<["_author" := a]> ∅))]))
  else if negb (isinstance_in h r int) then
    (Raises (Exception "Contract.royalties must be an int"),
     set_heap s (h ++ [Object k (<["_date" := d]> (<["_book" := b]> (<["_author" := a]> ∅)))]))
  else
    (Returns (length h),
     {| heap := h ++ [Object k (contract_dict a b d r)];
        Author_all := Author_all s;
        Book_all := Book_all s;
        Contract_all := Contract_all s ++ [length h] |}).
Proof.
  intros Hk. destruct s as [h A B C]. cbn [heap Author_all Book_all Contract_all].
  unfold Contract.create, Contract.__init__, set_heap.
  cbn [heap Author_all Book_all Contract_all].
  rewrite bind_run. unfold alloc at 1. cbn [heap Author_all Book_all Contract_all].
  rewrite !bind_run.
  rewrite Contract_author_setter_snoc.
  rewrite (isinstance_snoc_other h _ a (cls ClsAuthor)); cycle 1.
  { intros c [= <-]. simpl. apply issubclass_Contract_not_Author, Hk. }
  destruct (isinstance_in h a (cls ClsAuthor)); [|reflexivity]. cbn [negb]. cbv iota.
  rewrite !bind_run, Contract_book_setter_snoc.
  rewrite (isinstance_snoc_other h _ b (cls ClsBook)); cycle 1.
  { intros c [= <-]. simpl. apply issubclass_Contract_not_Book, Hk. }
  destruct (isinstance_in h b (cls ClsBook)); [|reflexivity]. cbn [negb]. cbv iota.
  rewrite !bind_run, Contract_date_setter_snoc.
  rewrite (isinstance_snoc_other h _ d str) by (intros c; discriminate).
  destruct (isinstance_in h d str); [|reflexivity]. cbn [negb]. cbv iota.
  rewrite !bind_run, Contract_royalties_setter_snoc.
  rewrite (isinstance_snoc_other h _ r int) by (intros c; discriminate).
  destruct (isinstance_in h r int); [|reflexivity]. cbn [negb]. cbv iota.
  reflexivity.
Qed.

Lemma Author_create_run (k : pyclass) (v : value) (s : state) :
  Author.create k v s =
  let h := heap s in
  if negb (isinstance_in h v str) then
    (Raises (Exception "Author.name must be a string"),
     set_heap s (h ++ [Object k ∅]))
  else
    (Returns (length h),
     {| heap := h ++ [Object k (<["_name" := v]> ∅)];
        Author_all := Author_all s ++ [length h];
        Book_all := Book_all s;
        Contract_all := Contract_all s |}).
Proof.
  destruct s as [h A B C]. cbn [heap Author_all Book_all Contract_all].
  unfold Author.create, Author.__init__, set_heap.
  cbn [heap Author_all Book_all Contract_all].
  rewrite bind_run. unfold alloc at 1. cbn [heap Author_all Book_all Contract_all].
  rewrite !bind_run, Author_name_setter_snoc.
  rewrite (isinstance_snoc_other h _ v str) by (intros c; discriminate).
  destruct (isinstance_in h v str); reflexivity.
Qed.

Lemma Book_create_run (k : pyclass) (v : value) (s : state) :
  Book.create k v s =
  let h := heap s in
  if negb (isinstance_in h v str) then
    (Raises (Exception "Book.title must be a string"),
     set_heap s (h ++ [Object k ∅]))
  else
    (Returns (length h),
     {| heap := h ++ [Object k (<["_title" := v]> ∅)];
        Author_all := Author_all s;
        Book_all := Book_all s ++ [length h];
        Contract_all := Contract_all s |}).
Proof.
  destruct s as [h A B C]. cbn [heap Author_all Book_all Contract_all].
  unfold Book.create, Book.__init__, set_heap.
  cbn [heap Author_all Book_all Contract_all].
  rewrite bind_run. unfold alloc at 1. cbn [heap Author_all Book_all Contract_all].
  rewrite !bind_run, Book_title_setter_snoc.
  rewrite (isinstance_snoc_other h _ v str) by (intros c; discriminate).
  destruct (isinstance_in h v str); reflexivity.
Qed.

(** ** What a well-formed state guarantees *)

Lemma isinstance_ref (h : list object) (a : addr) (c : pyclass) :
  isinstance_in h (VRef a) (cls c) =
  match type_of h a with Some k => issubclass k c | None => false end.
Proof. reflexivity. Qed.

Lemma isinstance_cls_inv (h : list object) (v : value) (c : pyclass) :
  isinstance_in h v (cls c) = true → ∃ a, v = VRef a.
Proof. destruct v; try discriminate. eauto. Qed.

Lemma isinstance_str_inv (h : list object) (v : value) :
  isinstance_in h v str = true → ∃ x, v = VStr x.
Proof. destruct v; try discriminate. eauto. Qed.

Lemma isinstance_int_inv (h : list object) (v : value) :
  isinstance_in h v int = true → ∃ z, int_of v = Some z.
Proof. destruct v; try discriminate; simpl; eauto. Qed.

Lemma contract_ok_spec (h : list object) (c : addr) :
  contract_ok h c = true ↔ ∃ a b d r, contract_at h c a b d r.
Proof.
  unfold contract_ok. split.
  - destruct (type_of h c) as [k|] eqn:Hk; [|discriminate].
    destruct (attr_of h c "_author") as [va|] eqn:Ha; [|discriminate].
    destruct (attr_of h c "_book") as [vb|] eqn:Hb; [|discriminate].
    destruct (attr_of h c "_date") as [vd|] eqn:Hd; [|discriminate].
    destruct (attr_of h c "_royalties") as [vr|] eqn:Hr; [|discriminate].
    rewrite !andb_true_iff. intros [[[[H1 H2] H3] H4] H5].
    destruct (isinstance_cls_inv _ _ _ H2) as [a ->].
    destruct (isinstance_cls_inv _ _ _ H3) as [b ->].
    destruct (isinstance_str_inv _ _ H4) as [d ->].
    exists a, b, d, vr. split; try assumption.
    rewrite isinstance_ref, Hk. assumption.
  - intros (a & b & d & r & [Ht Ha Hb Hd Hr Hat Hbt Hrt]).
    rewrite Ha, Hb, Hd, Hr. rewrite isinstance_ref in Ht.
    destruct (type_of h c) as [k|]; [|discriminate].
    rewrite Ht, Hat, Hbt, Hrt. reflexivity.
Qed.

Lemma author_ok_spec (h : list object) (a : addr) :
  author_ok h a = true ↔
  isinstance_in h (VRef a) (cls ClsAuthor) = true ∧ ∃ n, attr_of h a "_name" = Some (VStr n).
Proof.
  unfold author_ok. rewrite isinstance_ref. split.
  - destruct (type_of h a) as [k|]; [|discriminate].
    destruct (attr_of h a "_name") as [v|]; [|discriminate].
    rewrite andb_true_iff. intros [H1 H2].
    destruct (isinstance_str_inv _ _ H2) as [n ->]. eauto.
  - intros [H1 [n ->]]. destruct (type_of h a) as [k|]; [|discriminate].
    rewrite H1. reflexivity.
Qed.

Lemma book_ok_spec (h : list object) (b : addr) :
  book_ok h b = true ↔
  isinstance_in h (VRef b) (cls ClsBook) = true ∧ ∃ t, attr_of h b "_title" = Some (VStr t).
Proof.
  unfold book_ok. rewrite isinstance_ref. split.
  - destruct (type_of h b) as [k|]; [|discriminate].
    destruct (attr_of h b "_title") as [v|]; [|discriminate].
    rewrite andb_true_iff. intros [H1 H2].
    destruct (isinstance_str_inv _ _ H2) as [n ->]. eauto.
  - intros [H1 [n ->]]. destruct (type_of h b) as [k|]; [|discriminate].
    rewrite H1. reflexivity.
Qed.

Lemma wf_spec (s : state) :
  wf s = true ↔
  (∀ c, c ∈ Contract_all s → contract_ok (heap s) c = true)
  ∧ (∀ a, a ∈ Author_all s → author_ok (heap s) a = true)
  ∧ (∀ b, b ∈ Book_all s → book_ok (heap s) b = true).
Proof.
  unfold wf. rewrite !andb_true_iff, !forallb_forall.
  setoid_rewrite list_elem_of_In. tauto.
Qed.

Lemma wf_contract (s : state) (c : addr) :
  wf s = true → c ∈ Contract_all s → ∃ a b d r, contract_at (heap s) c a b d r.
Proof.
  intros Hwf Hc. apply contract_ok_spec. apply wf_spec in Hwf as (H & _ & _).
  apply H, Hc.
Qed.

(** ** Reading *)

Lemma getattr_Some (s : state) (a : addr) (name : string) (v : value) :
  attr_of (heap s) a name = Some v → getattr a name s = (Returns v, s).
Proof. intros H. unfold getattr. rewrite H. reflexivity. Qed.

Lemma getattr_returns (s s' : state) (a : addr) (name : string) (v : value) :
  getattr a name s = (Returns v, s') → attr_of (heap s) a name = Some v ∧ s' = s.
Proof.
  unfold getattr. destruct (attr_of (heap s) a name); intros [= <- <-]; auto.
Qed.

Lemma py_add_int (x y : Z) (r : value) (s : state) :
  int_of r = Some y → py_add (VInt x) r s = (Returns (VInt (x + y)), s).
Proof. intros H. unfold py_add. cbn [int_of]. rewrite H. reflexivity. Qed.

Lemma foldM_royalties (s : state) (cs : list addr) (acc : Z) :
  (∀ c, c ∈ cs → ∃ r, attr_of (heap s) c "_royalties" = Some r ∧ is_Some (int_of r)) →
  foldM (λ acc c, r ← Contract.royalties c; py_add acc r) (VInt acc) cs s =
  (Returns (VInt (acc + Zsum (royalty_of (heap s) <$> cs))), s).
Proof.
  revert acc. induction cs as [|c cs IH]; intros acc Hcs.
  - simpl. rewrite Z.add_0_r. reflexivity.
  - destruct (Hcs c (list_elem_of_here _ _)) as (r & Hr & [z Hz]).
    cbn [foldM]. rewrite bind_run. rewrite bind_run.
    unfold Contract.royalties. rewrite (getattr_Some _ _ _ _ Hr).
    rewrite (py_add_int acc z r s Hz).
    rewrite IH by (intros c' Hc'; apply Hcs, list_elem_of_further, Hc').
    rewrite fmap_cons. unfold Zsum at 2. cbn [foldr]. fold (Zsum (royalty_of (heap s) <$> cs)).
    unfold royalty_of at 2. rewrite Hr. simpl. rewrite Hz. simpl.
    rewrite Z.add_assoc. reflexivity.
Qed.

Lemma Author_contracts_run (s : state) (x : addr) :
  wf s = true →
  Author.contracts x s =
  (Returns (filter (λ c, attr_of (heap s) c "_author" = Some (VRef x)) (Contract_all s)), s).
Proof.
  intros Hwf. unfold Author.contracts. rewrite bind_run. unfold read at 1.
  apply filterM_pure. intros c Hc.
  destruct (wf_contract s c Hwf Hc) as (a & b & d & r & Hat).
  rewrite bind_run. unfold Contract.author.
  rewrite (getattr_Some _ _ _ _ (ca_author _ _ _ _ _ _ Hat)).
  rewrite ret_run, (ca_author _ _ _ _ _ _ Hat). simpl.
  f_equal. f_equal. apply bool_decide_ext. split; [congruence|intros [= ->]; reflexivity].
Qed.

Lemma Book_contracts_run (s : state) (x : addr) :
  wf s = true →
  Book.contracts x s =
  (Returns (filter (λ c, attr_of (heap s) c "_book" = Some (VRef x)) (Contract_all s)), s).
Proof.
  intros Hwf. unfold Book.contracts. rewrite bind_run. unfold read at 1.
  apply filterM_pure. intros c Hc.
  destruct (wf_contract s c Hwf Hc) as (a & b & d & r & Hat).
  rewrite bind_run. unfold Contract.book.
  rewrite (getattr_Some _ _ _ _ (ca_book _ _ _ _ _ _ Hat)).
  rewrite ret_run, (ca_book _ _ _ _ _ _ Hat). simpl.
  f_equal. f_equal. apply bool_decide_ext. split; [congruence|intros [= ->]; reflexivity].
Qed.

Lemma contracts_by_date_run (s : state) (d : string) :
  wf s = true →
  Contract.contracts_by_date (VStr d) s =
  (Returns (filter (λ c, attr_of (heap s) c "_date" = Some (VStr d)) (Contract_all s)), s).
Proof.
  intros Hwf. unfold Contract.contracts_by_date. rewrite bind_run. unfold read at 1.
  apply filterM_pure. intros c Hc.
  destruct (wf_contract s c Hwf Hc) as (a & b & d' & r & Hat).
  rewrite bind_run. unfold Contract.date.
  rewrite (getattr_Some _ _ _ _ (ca_date _ _ _ _ _ _ Hat)).
  rewrite ret_run, (ca_date _ _ _ _ _ _ Hat). unfold py_eq. simpl.
  f_equal. f_equal. apply bool_decide_ext. split; [congruence|intros [= ->]; reflexivity].
Qed.

(** ** Well-formedness is kept *)

Lemma contract_at_snoc (h : list object) (o : object) (c a b : addr) (d : string)
    (r : value) :
  contract_at h c a b d r → contract_at (h ++ [o]) c a b d r.
Proof.
  intros [Ht Ha Hb Hd Hr Hat Hbt Hrt].
  pose proof (attr_of_lt _ _ _ _ Ha) as Hlt.
  split; rewrite ?attr_of_snoc_old by assumption;
    try assumption; apply isinstance_snoc_mono; assumption.
Qed.

Lemma contract_ok_snoc (h : list object) (o : object) (c : addr) :
  contract_ok h c = true → contract_ok (h ++ [o]) c = true.
Proof.
  rewrite !contract_ok_spec. intros (a & b & d & r & H).
  exists a, b, d, r. apply contract_at_snoc, H.
Qed.

Lemma author_ok_snoc (h : list object) (o : object) (a : addr) :
  author_ok h a = true → author_ok (h ++ [o]) a = true.
Proof.
  rewrite !author_ok_spec. intros [Ht [n Hn]]. split.
  - apply isinstance_snoc_mono, Ht.
  - exists n. rewrite attr_of_snoc_old; [assumption|]. eapply attr_of_lt, Hn.
Qed.

Lemma book_ok_snoc (h : list object) (o : object) (b : addr) :
  book_ok h b = true → book_ok (h ++ [o]) b = true.
Proof.
  rewrite !book_ok_spec. intros [Ht [n Hn]]. split.
  - apply isinstance_snoc_mono, Ht.
  - exists n. rewrite attr_of_snoc_old; [assumption|]. eapply attr_of_lt, Hn.
Qed.

(** An instance left behind by a failed construction is in no registry and
    does no harm. *)
Lemma wf_snoc (s : state) (o : object) :
  wf s = true → wf (set_heap s (heap s ++ [o])) = true.
Proof.
  rewrite !wf_spec. intros (Hc & Ha & Hb). simpl.
  repeat split; intros x Hx.
  - apply contract_ok_snoc, Hc, Hx.
  - apply author_ok_snoc, Ha, Hx.
  - apply book_ok_snoc, Hb, Hx.
Qed.

Lemma contract_at_fresh (h : list object) (k : pyclass) (a b : addr) (d : string)
    (r : value) :
  issubclass k ClsContract = true →
  isinstance_in h (VRef a) (cls ClsAuthor) = true →
  isinstance_in h (VRef b) (cls ClsBook) = true →
  isinstance_in h r int = true →
  contract_at (h ++ [Object k (contract_dict (VRef a) (VRef b) (VStr d) r)])
    (length h) a b d r.
Proof.
  intros Hk Ha Hb Hr. unfold contract_dict. split.
  - rewrite isinstance_ref, type_of_snoc. rewrite decide_True by reflexivity. exact Hk.
  - rewrite attr_of_snoc_new. cbn [ob_dict]. by simplify_map_eq.
  - rewrite attr_of_snoc_new. cbn [ob_dict]. by simplify_map_eq.
  - rewrite attr_of_snoc_new. cbn [ob_dict]. by simplify_map_eq.
  - rewrite attr_of_snoc_new. cbn [ob_dict]. by simplify_map_eq.
  - apply isinstance_snoc_mono, Ha.
  - apply isinstance_snoc_mono, Hb.
  - apply isinstance_snoc_mono, Hr.
Qed.

Lemma wf_Contract_create (k : pyclass) (a b d r : value) (s : state) :
  issubclass k ClsContract = true → wf s = true →
  wf (after (Contract.create k a b d r) s) = true.
Proof.
  intros Hk Hwf. unfold after. rewrite (Contract_create_run k a b d r s Hk). cbv zeta.
  destruct (isinstance_in (heap s) a (cls ClsAuthor)) eqn:Ha; cbn [negb];
    [|apply wf_snoc, Hwf].
  destruct (isinstance_in (heap s) b (cls ClsBook)) eqn:Hb; cbn [negb];
    [|apply wf_snoc, Hwf].
  destruct (isinstance_in (heap s) d str) eqn:Hd; cbn [negb];
    [|apply wf_snoc, Hwf].
  destruct (isinstance_in (heap s) r int) eqn:Hr; cbn [negb];
    [|apply wf_snoc, Hwf].
  cbn [snd].
  destruct (isinstance_cls_inv _ _ _ Ha) as [a' ->].
  destruct (isinstance_cls_inv _ _ _ Hb) as [b' ->].
  destruct (isinstance_str_inv _ _ Hd) as [d' ->].
  apply wf_spec in Hwf as (Hc & HA & HB). apply wf_spec. simpl.
  repeat split; intros x Hx.
  - apply elem_of_app in Hx as [Hx|Hx].
    + apply contract_ok_snoc, Hc, Hx.
    + apply list_elem_of_singleton in Hx as ->. apply contract_ok_spec.
      exists a', b', d', r. apply contract_at_fresh; assumption.
  - apply author_ok_snoc, HA, Hx.
  - apply book_ok_snoc, HB, Hx.
Qed.

Lemma wf_Author_create (k : pyclass) (v : value) (s : state) :
  issubclass k ClsAuthor = true → wf s = true →
  wf (after (Author.create k v) s) = true.
Proof.
  intros Hk Hwf. unfold after. rewrite Author_create_run. cbv zeta.
  destruct (isinstance_in (heap s) v str) eqn:Hv; cbn [negb];
    [|apply wf_snoc, Hwf].
  cbn [snd]. destruct (isinstance_str_inv _ _ Hv) as [n ->].
  apply wf_spec in Hwf as (Hc & HA & HB). apply wf_spec. simpl.
  repeat split; intros x Hx.
  - apply contract_ok_snoc, Hc, Hx.
  - apply elem_of_app in Hx as [Hx|Hx].
    + apply author_ok_snoc, HA, Hx.
    + apply list_elem_of_singleton in Hx as ->. apply author_ok_spec. split.
      * rewrite isinstance_ref, type_of_snoc, decide_True by reflexivity. exact Hk.
      * exists n. rewrite attr_of_snoc_new. cbn [ob_dict]. by simplify_map_eq.
  - apply book_ok_snoc, HB, Hx.
Qed.

Lemma wf_Book_create (k : pyclass) (v : value) (s : state) :
  issubclass k ClsBook = true → wf s = true →
  wf (after (Book.create k v) s) = true.
Proof.
  intros Hk Hwf. unfold after. rewrite Book_create_run. cbv zeta.
  destruct (isinstance_in (heap s) v str) eqn:Hv; cbn [negb];
    [|apply wf_snoc, Hwf].
  cbn [snd]. destruct (isinstance_str_inv _ _ Hv) as [n ->].
  apply wf_spec in Hwf as (Hc & HA & HB). apply wf_spec. simpl.
  repeat split; intros x Hx.
  - apply contract_ok_snoc, Hc, Hx.
  - apply author_ok_snoc, HA, Hx.
  - apply elem_of_app in Hx as [Hx|Hx].
    + apply book_ok_snoc, HB, Hx.
    + apply list_elem_of_singleton in Hx as ->. apply book_ok_spec. split.
      * rewrite isinstance_ref, type_of_snoc, decide_True by reflexivity. exact Hk.
      * exists n. rewrite attr_of_snoc_new. cbn [ob_dict]. by simplify_map_eq.
Qed.

(** ** Assignment to a live instance *)

Lemma type_of_store (h : list object) (self : addr) (o : object) (name : string)
    (v : value) (x : addr) :
  h !! self = Some o → type_of (store h self o name v) x = type_of h x.
Proof.
  intros Ho. unfold type_of, store. destruct (decide (x = self)) as [->|Hne].
  - rewrite list_lookup_insert_eq by (eapply lookup_lt_Some, Ho). rewrite Ho. reflexivity.
  - rewrite list_lookup_insert_ne by congruence. reflexivity.
Qed.

Lemma attr_of_store (h : list object) (self : addr) (o : object) (name : string)
    (v : value) (x : addr) (n : string) :
  h !! self = Some o →
  attr_of (store h self o name v) x n =
  if decide (x = self ∧ n = name) then Some v else attr_of h x n.
Proof.
  intros Ho. unfold attr_of, store. destruct (decide (x = self)) as [->|Hne].
  - rewrite list_lookup_insert_eq by (eapply lookup_lt_Some, Ho). rewrite Ho. simpl.
    destruct (decide (n = name)) as [->|Hn].
    + rewrite lookup_insert_eq, decide_True by auto. reflexivity.
    + rewrite lookup_insert_ne, decide_False by (try intros [_ ?]; congruence). reflexivity.
  - rewrite list_lookup_insert_ne by congruence.
    rewrite decide_False by (intros [? _]; congruence). reflexivity.
Qed.

Lemma isinstance_store (h : list object) (self : addr) (o : object) (name : string)
    (v w : value) (t : pytype) :
  h !! self = Some o →
  isinstance_in (store h self o name v) w t = isinstance_in h w t.
Proof.
  intros Ho. destruct t as [| |c], w as [|b|z|x|a]; try reflexivity.
  rewrite !isinstance_ref, type_of_store by assumption. reflexivity.
Qed.

Lemma contract_ok_store (h : list object) (self : addr) (o : object) (name : string)
    (v : value) (c : addr) :
  h !! self = Some o →
  (∀ t, field_type name = Some t → isinstance_in h v t = true) →
  contract_ok h c = true → contract_ok (store h self o name v) c = true.
Proof.
  intros Ho Hv. unfold contract_ok.
  rewrite type_of_store, !attr_of_store by assumption.
  destruct (type_of h c) as [k|]; [|discriminate].
  destruct (attr_of h c "_author") as [va|]; [|discriminate].
  destruct (attr_of h c "_book") as [vb|]; [|discriminate].
  destruct (attr_of h c "_date") as [vd|]; [|discriminate].
  destruct (attr_of h c "_royalties") as [vr|]; [|discriminate].
  rewrite !andb_true_iff. intros [[[[H1 H2] H3] H4] H5].
  repeat case_decide; destruct_and?; simplify_eq;
    rewrite !isinstance_store by assumption;
    rewrite ?H1, ?H2, ?H3, ?H4, ?H5, ?(Hv _ eq_refl); reflexivity.
Qed.

Lemma author_ok_store (h : list object) (self : addr) (o : object) (name : string)
    (v : value) (a : addr) :
  h !! self = Some o →
  (∀ t, field_type name = Some t → isinstance_in h v t = true) →
  author_ok h a = true → author_ok (store h self o name v) a = true.
Proof.
  intros Ho Hv. unfold author_ok.
  rewrite type_of_store, !attr_of_store by assumption.
  destruct (type_of h a) as [k|]; [|discriminate].
  destruct (attr_of h a "_name") as [vn|]; [|discriminate].
  rewrite !andb_true_iff. intros [H1 H2].
  repeat case_decide; destruct_and?; simplify_eq;
    rewrite !isinstance_store by assumption;
    rewrite ?H1, ?H2, ?(Hv _ eq_refl); reflexivity.
Qed.

Lemma book_ok_store (h : list object) (self : addr) (o : object) (name : string)
    (v : value) (b : addr) :
  h !! self = Some o →
  (∀ t, field_type name = Some t → isinstance_in h v t = true) →
  book_ok h b = true → book_ok (store h self o name v) b = true.
Proof.
  intros Ho Hv. unfold book_ok.
  rewrite type_of_store, !attr_of_store by assumption.
  destruct (type_of h b) as [k|]; [|discriminate].
  destruct (attr_of h b "_title") as [vt|]; [|discriminate].
  rewrite !andb_true_iff. intros [H1 H2].
  repeat case_decide; destruct_and?; simplify_eq;
    rewrite !isinstance_store by assumption;
    rewrite ?H1, ?H2, ?(Hv _ eq_refl); reflexivity.
Qed.

(** A validated assignment keeps the state well-formed, whether it is
    refused or carried out, and whatever instance it is made on. *)
Lemma wf_validated_setter (name msg : string) (t : pytype) (self : addr)
    (v : value) (s : state) :
  field_type name = Some t → wf s = true →
  wf (after (ok ← isinstance v t;
             if negb ok then raise (Exception msg) else setattr self name v) s) = true.
Proof.
  intros Hname Hwf. unfold after. rewrite bind_run. unfold isinstance.
  destruct (isinstance_in (heap s) v t) eqn:Hv; cbn [negb]; [|exact Hwf].
  unfold setattr. destruct (heap s !! self) as [o|] eqn:Ho; [|exact Hwf].
  cbn [snd]. fold (store (heap s) self o name v).
  assert (Hvalid : ∀ t', field_type name = Some t' → isinstance_in (heap s) v t' = true)
    by (intros t' Ht'; rewrite Hname in Ht'; injection Ht' as <-; exact Hv).
  apply wf_spec in Hwf as (Hc & Ha & Hb). apply wf_spec. simpl.
  repeat split; intros x Hx.
  - apply contract_ok_store; auto.
  - apply author_ok_store; auto.
  - apply book_ok_store; auto.
Qed.

Lemma step_wf (s s' : state) : step s s' → wf s = true → wf s' = true.
Proof.
  intros [k v Hk|k v Hk|k a b d r Hk|self v|self v|self v|self v|self v|self v] Hwf.
  - apply wf_Author_create; assumption.
  - apply wf_Book_create; assumption.
  - apply wf_Contract_create; assumption.
  - apply (wf_validated_setter "_name"); [reflexivity|assumption].
  - apply (wf_validated_setter "_title"); [reflexivity|assumption].
  - apply (wf_validated_setter "_author"); [reflexivity|assumption].
  - apply (wf_validated_setter "_book"); [reflexivity|assumption].
  - apply (wf_validated_setter "_date"); [reflexivity|assumption].
  - apply (wf_validated_setter "_royalties"); [reflexivity|assumption].
Qed.

(** Every state the module can be brought to is well-formed. *)
Lemma reachable_wf (s : state) : reachable s → wf s = true.
Proof.
  unfold reachable. intros H.
  revert s H. apply (rtc_ind_r (R := step) (λ s, wf s = true) initial); [reflexivity|].
  intros s1 s2 _ Hstep IH. eapply step_wf; eassumption.
Qed.

(** ** Comprehensions over registered contracts *)

Lemma filter_registry_contract (s : state) (P : addr → Prop) `{!∀ c, Decision (P c)}
    (c : addr) :
  wf s = true → c ∈ filter P (Contract_all s) →
  ∃ a b d r, contract_at (heap s) c a b d r.
Proof.
  intros Hwf Hc. apply list_elem_of_filter in Hc as [_ Hc].
  apply (wf_contract s c Hwf Hc).
Qed.

(** The set comprehension over a list of contracts that are all registered:
    a duplicate-free listing of the field read from each. *)
Lemma set_of_field (s : state) (name : string) (cs : list addr) :
  (∀ c, c ∈ cs → is_Some (attr_of (heap s) c name)) →
  ∃ vs, mapM (λ c, getattr c name) cs s = (Returns vs, s)
        ∧ NoDup (elements (list_to_set vs : gset value))
        ∧ ∀ v, v ∈ elements (list_to_set vs : gset value)
               ↔ ∃ c, c ∈ cs ∧ getattr c name s = (Returns v, s).
Proof.
  intros Hcs.
  exists ((λ c, default VNone (attr_of (heap s) c name)) <$> cs).
  split; [|split].
  - apply mapM_pure. intros c Hc. destruct (Hcs c Hc) as [v Hv].
    rewrite (getattr_Some _ _ _ _ Hv), Hv. reflexivity.
  - apply NoDup_elements.
  - intros v. rewrite elem_of_elements, elem_of_list_to_set, list_elem_of_fmap.
    split.
    + intros (c & -> & Hc). exists c. split; [assumption|].
      destruct (Hcs c Hc) as [v Hv].
      rewrite (getattr_Some _ _ _ _ Hv), Hv. reflexivity.
    + intros (c & Hc & Hget). exists c. split; [|assumption].
      apply getattr_returns in Hget as [-> _]. reflexivity.
Qed.

Lemma validated_setter_rejects (name msg : string) (t : pytype) (self : addr)
    (v : value) (s : state) :
  isinstance_in (heap s) v t = false →
  (ok ← isinstance v t;
   if negb ok then raise (Exception msg) else setattr self name v) s =
  (Raises (Exception msg), s).
Proof. intros H. rewrite bind_run. unfold isinstance. rewrite H. reflexivity. Qed.

(** * The properties of the specification *)

(** C1.  For an author [a], a book [b], a string [d] and an integer [r],
    [a.sign_contract(b, d, r)] returns a contract [c] whose [author] is [a],
    whose [book] is [b], whose [date] is [d] and whose [royalties] are [r],
    and [c] is among [a.contracts()] and among [b.contracts()]. *)
Theorem sign_contract_links (s : state) (a b : addr) (d : string) (r : Z) :
  wf s = true →
  isinstance_in (heap s) (VRef a) (cls ClsAuthor) = true →
  isinstance_in (heap s) (VRef b) (cls ClsBook) = true →
  ∃ c s',
    Author.sign_contract a (VRef b) (VStr d) (VInt r) s = (Returns c, s')
    ∧ Contract.author c s' = (Returns (VRef a), s')
    ∧ Contract.book c s' = (Returns (VRef b), s')
    ∧ Contract.date c s' = (Returns (VStr d), s')
    ∧ Contract.royalties c s' = (Returns (VInt r), s')
    ∧ (∃ cs, Author.contracts a s' = (Returns cs, s') ∧ c ∈ cs)
    ∧ (∃ cs, Book.contracts b s' = (Returns cs, s') ∧ c ∈ cs).
Proof.
  intros Hwf Ha Hb.
  pose proof (wf_Contract_create ClsContract (VRef a) (VRef b) (VStr d) (VInt r) s
                eq_refl Hwf) as Hwf'.
  unfold after in Hwf'.
  unfold Author.sign_contract, Contract.new.
  rewrite (Contract_create_run ClsContract _ _ _ _ s eq_refl) in Hwf' |- *.
  cbv zeta in Hwf' |- *. rewrite Ha, Hb in Hwf' |- *.
  cbn [isinstance_in negb snd] in Hwf' |- *.
  pose proof (contract_at_fresh (heap s) ClsContract a b d (VInt r) eq_refl Ha Hb eq_refl)
    as Hat.
  eexists _, _. split; [reflexivity|].
  set (s' := {| heap := _ |}) in *.
  change (heap s ++ _) with (heap s') in Hat.
  split; [apply getattr_Some, (ca_author _ _ _ _ _ _ Hat)|].
  split; [apply getattr_Some, (ca_book _ _ _ _ _ _ Hat)|].
  split; [apply getattr_Some, (ca_date _ _ _ _ _ _ Hat)|].
  split; [apply getattr_Some, (ca_royalties _ _ _ _ _ _ Hat)|].
  split.
  - eexists. split; [apply Author_contracts_run, Hwf'|].
    apply list_elem_of_filter. split; [apply (ca_author _ _ _ _ _ _ Hat)|].
    subst s'. cbn [Contract_all]. apply elem_of_app. right. apply list_elem_of_singleton.
    reflexivity.
  - eexists. split; [apply Book_contracts_run, Hwf'|].
    apply list_elem_of_filter. split; [apply (ca_book _ _ _ _ _ _ Hat)|].
    subst s'. cbn [Contract_all]. apply elem_of_app. right. apply list_elem_of_singleton.
    reflexivity.
Qed.

Lemma sign_contract_links_witness :
  wf after_scenario = true
  ∧ isinstance_in (heap after_scenario) (VRef 0%nat) (cls ClsAuthor) = true
  ∧ isinstance_in (heap after_scenario) (VRef 2%nat) (cls ClsBook) = true
  ∧ ∃ c s',
      Author.sign_contract 0%nat (VRef 2%nat) (VStr "2021-06-30") (VInt 75) after_scenario
      = (Returns c, s')
      ∧ Contract.author c s' = (Returns (VRef 0%nat), s')
      ∧ Contract.book c s' = (Returns (VRef 2%nat), s')
      ∧ Contract.date c s' = (Returns (VStr "2021-06-30"), s')
      ∧ Contract.royalties c s' = (Returns (VInt 75), s')
      ∧ (∃ cs, Author.contracts 0%nat s' = (Returns cs, s') ∧ c ∈ cs)
      ∧ (∃ cs, Book.contracts 2%nat s' = (Returns cs, s') ∧ c ∈ cs).
Proof.
  split; [vm_compute; reflexivity|].
  split; [vm_compute; reflexivity|].
  split; [vm_compute; reflexivity|].
  apply (sign_contract_links after_scenario 0%nat 2%nat "2021-06-30" 75);
    vm_compute; reflexivity.
Defined.

(** C2.  [Contract.contracts_by_date(d)] returns exactly the registered
    contracts whose date is the string [d], in the order of the registry,
    and the empty list when no registered contract has that date. *)
Theorem contracts_by_date_exact (s : state) (d : string) :
  wf s = true →
  Contract.contracts_by_date (VStr d) s =
  (Returns (filter (λ c, attr_of (heap s) c "_date" = Some (VStr d)) (Contract_all s)), s)
  ∧ ((∀ c, c ∈ Contract_all s → attr_of (heap s) c "_date" ≠ Some (VStr d)) →
     Contract.contracts_by_date (VStr d) s = (Returns [], s)).
Proof.
  intros Hwf. split; [apply contracts_by_date_run, Hwf|].
  intros Hnone. rewrite (contracts_by_date_run s d Hwf).
  f_equal. f_equal. induction (Contract_all s) as [|c l IH]; [reflexivity|].
  rewrite filter_cons, decide_False by (apply Hnone, list_elem_of_here).
  apply IH. intros c' Hc'. apply Hnone, list_elem_of_further, Hc'.
Qed.

Lemma contracts_by_date_exact_witness :
  wf after_scenario = true
  ∧ Contract.contracts_by_date (VStr "2020-01-01") after_scenario
    = (Returns [3%nat; 4%nat], after_scenario).
Proof.
  split; [vm_compute; reflexivity|].
  etransitivity.
  - apply (proj1 (contracts_by_date_exact after_scenario "2020-01-01" eq_refl)).
  - vm_compute. reflexivity.
Defined.

(** C3.  [a.contracts()] is the list of the registered contracts whose
    author is the instance [a] itself, in the order of the registry, and
    [b.contracts()] is the list of those whose book is the instance [b]. *)
Theorem contracts_by_identity (s : state) (x : addr) :
  wf s = true →
  Author.contracts x s =
  (Returns (filter (λ c, attr_of (heap s) c "_author" = Some (VRef x)) (Contract_all s)), s)
  ∧ Book.contracts x s =
    (Returns (filter (λ c, attr_of (heap s) c "_book" = Some (VRef x)) (Contract_all s)), s).
Proof.
  intros Hwf. split; [apply Author_contracts_run|apply Book_contracts_run]; exact Hwf.
Qed.

Lemma contracts_by_identity_witness :
  wf after_scenario = true
  ∧ Author.contracts 1%nat after_scenario = (Returns [4%nat], after_scenario)
  ∧ Book.contracts 2%nat after_scenario = (Returns [3%nat; 4%nat], after_scenario).
Proof.
  split; [vm_compute; reflexivity|].
  split.
  - etransitivity.
    + apply (proj1 (contracts_by_identity after_scenario 1%nat eq_refl)).
    + vm_compute. reflexivity.
  - etransitivity.
    + apply (proj2 (contracts_by_identity after_scenario 2%nat eq_refl)).
    + vm_compute. reflexivity.
Defined.

(** C4.  [a.books()] holds exactly the books met in [a.contracts()], each
    once, and [b.authors()] exactly the authors met in [b.contracts()], each
    once; what is told apart is the instance, not its field values. *)
Theorem books_authors_distinct (s : state) (x : addr) :
  wf s = true →
  (∃ cs bs,
     Author.contracts x s = (Returns cs, s)
     ∧ Author.books x s = (Returns bs, s)
     ∧ NoDup bs
     ∧ (∀ v, v ∈ bs ↔ ∃ c, c ∈ cs ∧ Contract.book c s = (Returns v, s))
     ∧ (∀ v, v ∈ bs → isinstance_in (heap s) v (cls ClsBook) = true))
  ∧ (∃ cs au,
       Book.contracts x s = (Returns cs, s)
       ∧ Book.authors x s = (Returns au, s)
       ∧ NoDup au
       ∧ (∀ v, v ∈ au ↔ ∃ c, c ∈ cs ∧ Contract.author c s = (Returns v, s))
       ∧ (∀ v, v ∈ au → isinstance_in (heap s) v (cls ClsAuthor) = true)).
Proof.
  intros Hwf. split.
  - pose proof (Author_contracts_run s x Hwf) as Hcs.
    set (cs := filter _ _) in Hcs.
    destruct (set_of_field s "_book" cs) as (vs & Hvs & Hnd & Hin).
    { intros c Hc. destruct (filter_registry_contract s _ c Hwf Hc) as (a & b & d & r & Hat).
      rewrite (ca_book _ _ _ _ _ _ Hat). eauto. }
    exists cs, (elements (list_to_set vs : gset value)).
    split; [exact Hcs|]. split.
    { unfold Author.books. rewrite (bind_returns _ _ _ _ _ Hcs).
      unfold Contract.book. rewrite (bind_returns _ _ _ _ _ Hvs). reflexivity. }
    split; [exact Hnd|]. split; [exact Hin|].
    intros v Hv. apply Hin in Hv as (c & Hc & Hget).
    destruct (filter_registry_contract s _ c Hwf Hc) as (a & b & d & r & Hat).
    apply getattr_returns in Hget as [Hget _].
    rewrite (ca_book _ _ _ _ _ _ Hat) in Hget. injection Hget as <-.
    apply (ca_book_type _ _ _ _ _ _ Hat).
  - pose proof (Book_contracts_run s x Hwf) as Hcs.
    set (cs := filter _ _) in Hcs.
    destruct (set_of_field s "_author" cs) as (vs & Hvs & Hnd & Hin).
    { intros c Hc. destruct (filter_registry_contract s _ c Hwf Hc) as (a & b & d & r & Hat).
      rewrite (ca_author _ _ _ _ _ _ Hat). eauto. }
    exists cs, (elements (list_to_set vs : gset value)).
    split; [exact Hcs|]. split.
    { unfold Book.authors. rewrite (bind_returns _ _ _ _ _ Hcs).
      unfold Contract.author. rewrite (bind_returns _ _ _ _ _ Hvs). reflexivity. }
    split; [exact Hnd|]. split; [exact Hin|].
    intros v Hv. apply Hin in Hv as (c & Hc & Hget).
    destruct (filter_registry_contract s _ c Hwf Hc) as (a & b & d & r & Hat).
    apply getattr_returns in Hget as [Hget _].
    rewrite (ca_author _ _ _ _ _ _ Hat) in Hget. injection Hget as <-.
    apply (ca_author_type _ _ _ _ _ _ Hat).
Qed.

Lemma books_authors_distinct_witness :
  wf after_scenario = true
  ∧ (∃ cs bs,
       Author.contracts 2%nat after_scenario = (Returns cs, after_scenario)
       ∧ Author.books 2%nat after_scenario = (Returns bs, after_scenario)
       ∧ NoDup bs
       ∧ (∀ v, v ∈ bs ↔
               ∃ c, c ∈ cs ∧ Contract.book c after_scenario = (Returns v, after_scenario))
       ∧ (∀ v, v ∈ bs → isinstance_in (heap after_scenario) v (cls ClsBook) = true))
  ∧ (∃ cs au,
       Book.contracts 2%nat after_scenario = (Returns cs, after_scenario)
       ∧ Book.authors 2%nat after_scenario = (Returns au, after_scenario)
       ∧ NoDup au
       ∧ (∀ v, v ∈ au ↔
               ∃ c, c ∈ cs ∧ Contract.author c after_scenario = (Returns v, after_scenario))
       ∧ (∀ v, v ∈ au → isinstance_in (heap after_scenario) v (cls ClsAuthor) = true)).
Proof.
  split; [vm_compute; reflexivity|].
  apply (books_authors_distinct after_scenario 2%nat). vm_compute; reflexivity.
Defined.

(** C5.  [a.total_royalties()] is the sum of the royalties of the contracts
    in [a.contracts()], and [0] when there are none. *)
Theorem total_royalties_sum (s : state) (x : addr) :
  wf s = true →
  ∃ cs,
    Author.contracts x s = (Returns cs, s)
    ∧ (∀ c, c ∈ cs →
         ∃ r, Contract.royalties c s = (Returns r, s)
              ∧ int_of r = Some (royalty_of (heap s) c))
    ∧ Author.total_royalties x s =
      (Returns (VInt (Zsum (royalty_of (heap s) <$> cs))), s)
    ∧ (cs = [] → Author.total_royalties x s = (Returns (VInt 0), s)).
Proof.
  intros Hwf. pose proof (Author_contracts_run s x Hwf) as Hcs.
  set (cs := filter _ _) in Hcs. exists cs.
  assert (Hr : ∀ c, c ∈ cs →
            ∃ r, attr_of (heap s) c "_royalties" = Some r ∧ is_Some (int_of r)).
  { intros c Hc. destruct (filter_registry_contract s _ c Hwf Hc) as (a & b & d & r & Hat).
    exists r. split; [apply (ca_royalties _ _ _ _ _ _ Hat)|].
    destruct (isinstance_int_inv _ _ (ca_royalties_type _ _ _ _ _ _ Hat)) as [z Hz].
    rewrite Hz. eauto. }
  assert (Htot : Author.total_royalties x s =
                 (Returns (VInt (Zsum (royalty_of (heap s) <$> cs))), s)).
  { unfold Author.total_royalties. rewrite (bind_returns _ _ _ _ _ Hcs).
    rewrite (foldM_royalties s cs 0 Hr). reflexivity. }
  split; [exact Hcs|]. split; [|split; [exact Htot|]].
  - intros c Hc. destruct (Hr c Hc) as (r & Hattr & [z Hz]). exists r. split.
    + apply getattr_Some, Hattr.
    + unfold royalty_of. rewrite Hattr. simpl. rewrite Hz. reflexivity.
  - intros Hnil. rewrite Htot, Hnil. reflexivity.
Qed.

Lemma total_royalties_sum_witness :
  wf after_scenario = true
  ∧ ∃ cs,
      Author.contracts 0%nat after_scenario = (Returns cs, after_scenario)
      ∧ (∀ c, c ∈ cs →
           ∃ r, Contract.royalties c after_scenario = (Returns r, after_scenario)
                ∧ int_of r = Some (royalty_of (heap after_scenario) c))
      ∧ Author.total_royalties 0%nat after_scenario =
        (Returns (VInt (Zsum (royalty_of (heap after_scenario) <$> cs))), after_scenario)
      ∧ (cs = [] →
         Author.total_royalties 0%nat after_scenario = (Returns (VInt 0), after_scenario)).
Proof.
  split; [vm_compute; reflexivity|].
  apply (total_royalties_sum after_scenario 0%nat). vm_compute; reflexivity.
Defined.

(** C6.  [Contract(author, book, date, royalties)] checks the author, then
    the book, then the date, then the royalties, and raises at the first
    check that fails, with a message naming that field; when the four checks
    pass, the new instance is appended to [Contract.all] and returned. *)
Theorem Contract_new_validates_in_order (a b d r : value) (s : state) :
  result (Contract.new a b d r) s =
  (if negb (isinstance_in (heap s) a (cls ClsAuthor)) then
     Raises (Exception "Contract.author must be an Author")
   else if negb (isinstance_in (heap s) b (cls ClsBook)) then
     Raises (Exception "Contract.book must be a Book")
   else if negb (isinstance_in (heap s) d str) then
     Raises (Exception "Contract.date must be a str")
   else if negb (isinstance_in (heap s) r int) then
     Raises (Exception "Contract.royalties must be an int")
   else Returns (length (heap s)))
  ∧ Contract_all (after (Contract.new a b d r) s) =
    (if isinstance_in (heap s) a (cls ClsAuthor)
        && isinstance_in (heap s) b (cls ClsBook)
        && isinstance_in (heap s) d str
        && isinstance_in (heap s) r int
     then Contract_all s ++ [length (heap s)]
     else Contract_all s).
Proof.
  unfold result, after, Contract.new.
  rewrite (Contract_create_run ClsContract a b d r s eq_refl). cbv zeta.
  destruct (isinstance_in (heap s) a (cls ClsAuthor)); [|split; reflexivity].
  destruct (isinstance_in (heap s) b (cls ClsBook)); [|split; reflexivity].
  destruct (isinstance_in (heap s) d str); [|split; reflexivity].
  destruct (isinstance_in (heap s) r int); split; reflexivity.
Qed.

(** C7.  When one of the four arguments of [Contract(...)] is of the wrong
    kind, the call raises and [Contract.all] is what it was before the call
    (so is its length); the two other registries are untouched too. *)
Theorem Contract_new_failure_keeps_registry (a b d r : value) (s : state) :
  isinstance_in (heap s) a (cls ClsAuthor) = false
  ∨ isinstance_in (heap s) b (cls ClsBook) = false
  ∨ isinstance_in (heap s) d str = false
  ∨ isinstance_in (heap s) r int = false →
  ∃ msg s',
    Contract.new a b d r s = (Raises (Exception msg), s')
    ∧ Contract_all s' = Contract_all s
    ∧ length (Contract_all s') = length (Contract_all s)
    ∧ Author_all s' = Author_all s
    ∧ Book_all s' = Book_all s.
Proof.
  intros Hbad. unfold Contract.new.
  rewrite (Contract_create_run ClsContract a b d r s eq_refl). cbv zeta.
  destruct (isinstance_in (heap s) a (cls ClsAuthor));
    [|eexists _, _; repeat split; reflexivity].
  destruct (isinstance_in (heap s) b (cls ClsBook));
    [|eexists _, _; repeat split; reflexivity].
  destruct (isinstance_in (heap s) d str);
    [|eexists _, _; repeat split; reflexivity].
  destruct (isinstance_in (heap s) r int);
    [|eexists _, _; repeat split; reflexivity].
  destruct Hbad as [H|[H|[H|H]]]; discriminate H.
Qed.

(** The scenario of the specification: [Contract(jo, "not a book",
    "2020-01-01", 50)] after the two contracts were signed. *)
Lemma Contract_new_failure_keeps_registry_witness :
  (isinstance_in (heap after_scenario) (VRef 0%nat) (cls ClsAuthor) = false
   ∨ isinstance_in (heap after_scenario) (VStr "not a book") (cls ClsBook) = false
   ∨ isinstance_in (heap after_scenario) (VStr "2020-01-01") str = false
   ∨ isinstance_in (heap after_scenario) (VInt 50) int = false)
  ∧ ∃ msg s',
      Contract.new (VRef 0%nat) (VStr "not a book") (VStr "2020-01-01") (VInt 50)
        after_scenario = (Raises (Exception msg), s')
      ∧ Contract_all s' = Contract_all after_scenario
      ∧ length (Contract_all s') = length (Contract_all after_scenario)
      ∧ Author_all s' = Author_all after_scenario
      ∧ Book_all s' = Book_all after_scenario.
Proof.
  split; [right; left; vm_compute; reflexivity|].
  apply (Contract_new_failure_keeps_registry
           (VRef 0%nat) (VStr "not a book") (VStr "2020-01-01") (VInt 50) after_scenario).
  right; left; vm_compute; reflexivity.
Defined.

(** C8.  A value that is not a string is refused as an author's name and as
    a book's title, by the constructor and by a later assignment alike, and
    the error is raised by the very call; a string is accepted, and is what
    [name] and [title] give back. *)
Theorem name_title_validation (v : value) (x : string) (self : addr) (s : state) :
  isinstance_in (heap s) v str = false →
  (∃ s', Author.new v s = (Raises (Exception "Author.name must be a string"), s'))
  ∧ Author.name_setter self v s = (Raises (Exception "Author.name must be a string"), s)
  ∧ (∃ s', Book.new v s = (Raises (Exception "Book.title must be a string"), s'))
  ∧ Book.title_setter self v s = (Raises (Exception "Book.title must be a string"), s)
  ∧ (∃ a s', Author.new (VStr x) s = (Returns a, s')
             ∧ Author.name a s' = (Returns (VStr x), s'))
  ∧ (∃ b s', Book.new (VStr x) s = (Returns b, s')
             ∧ Book.title b s' = (Returns (VStr x), s')).
Proof.
  intros Hv. unfold Author.new, Book.new.
  rewrite !Author_create_run, !Book_create_run. cbv zeta. rewrite Hv.
  cbn [isinstance_in negb].
  split; [eauto|].
  split; [apply validated_setter_rejects, Hv|].
  split; [eauto|].
  split; [apply validated_setter_rejects, Hv|].
  split.
  - eexists _, _. split; [reflexivity|].
    apply getattr_Some. cbn [heap]. rewrite attr_of_snoc_new. cbn [ob_dict].
    by simplify_map_eq.
  - eexists _, _. split; [reflexivity|].
    apply getattr_Some. cbn [heap]. rewrite attr_of_snoc_new. cbn [ob_dict].
    by simplify_map_eq.
Qed.

Lemma name_title_validation_witness :
  isinstance_in (heap after_scenario) (VInt 42) str = false
  ∧ (∃ s', Author.new (VInt 42) after_scenario
           = (Raises (Exception "Author.name must be a string"), s'))
  ∧ Author.name_setter 0%nat (VInt 42) after_scenario
    = (Raises (Exception "Author.name must be a string"), after_scenario)
  ∧ (∃ s', Book.new (VInt 42) after_scenario
           = (Raises (Exception "Book.title must be a string"), s'))
  ∧ Book.title_setter 0%nat (VInt 42) after_scenario
    = (Raises (Exception "Book.title must be a string"), after_scenario)
  ∧ (∃ a s', Author.new (VStr "Ann") after_scenario = (Returns a, s')
             ∧ Author.name a s' = (Returns (VStr "Ann"), s'))
  ∧ (∃ b s', Book.new (VStr "Ann") after_scenario = (Returns b, s')
             ∧ Book.title b s' = (Returns (VStr "Ann"), s')).
Proof.
  split; [vm_compute; reflexivity|].
  apply (name_title_validation (VInt 42) "Ann" 0%nat after_scenario).
  vm_compute; reflexivity.
Defined.

(** C9.  [True] and [False] pass the royalties check, [bool] being a
    subclass of [int], and an instance of a class derived from [Author] or
    from [Book] passes the author or the book check: such a contract is
    built and registered. *)
Theorem bool_and_subclass_accepted (s : state) (a b : addr) (ka kb : pyclass)
    (d : string) (t : bool) :
  type_of (heap s) a = Some ka → issubclass ka ClsAuthor = true →
  type_of (heap s) b = Some kb → issubclass kb ClsBook = true →
  isinstance_in (heap s) (VBool t) int = true
  ∧ ∃ c s',
      Contract.new (VRef a) (VRef b) (VStr d) (VBool t) s = (Returns c, s')
      ∧ Contract_all s' = Contract_all s ++ [c]
      ∧ Contract.author c s' = (Returns (VRef a), s')
      ∧ Contract.book c s' = (Returns (VRef b), s')
      ∧ Contract.royalties c s' = (Returns (VBool t), s').
Proof.
  intros Hka Ha Hkb Hb. split; [reflexivity|].
  assert (Ha' : isinstance_in (heap s) (VRef a) (cls ClsAuthor) = true)
    by (rewrite isinstance_ref, Hka; exact Ha).
  assert (Hb' : isinstance_in (heap s) (VRef b) (cls ClsBook) = true)
    by (rewrite isinstance_ref, Hkb; exact Hb).
  pose proof (contract_at_fresh (heap s) ClsContract a b d (VBool t) eq_refl Ha' Hb' eq_refl)
    as Hat.
  unfold Contract.new.
  rewrite (Contract_create_run ClsContract _ _ _ _ s eq_refl). cbv zeta.
  rewrite Ha', Hb'. cbn [isinstance_in negb].
  eexists _, _. split; [reflexivity|]. split; [reflexivity|].
  split; [apply getattr_Some, (ca_author _ _ _ _ _ _ Hat)|].
  split; [apply getattr_Some, (ca_book _ _ _ _ _ _ Hat)|].
  apply getattr_Some, (ca_royalties _ _ _ _ _ _ Hat).
Qed.

Lemma bool_and_subclass_accepted_witness :
  type_of (heap after_derived) 0%nat = Some (ClsUser "Novelist" ClsAuthor)
  ∧ issubclass (ClsUser "Novelist" ClsAuthor) ClsAuthor = true
  ∧ type_of (heap after_derived) 1%nat = Some (ClsUser "Novel" ClsBook)
  ∧ issubclass (ClsUser "Novel" ClsBook) ClsBook = true
  ∧ isinstance_in (heap after_derived) (VBool true) int = true
  ∧ ∃ c s',
      Contract.new (VRef 0%nat) (VRef 1%nat) (VStr "2020-01-01") (VBool true) after_derived
      = (Returns c, s')
      ∧ Contract_all s' = Contract_all after_derived ++ [c]
      ∧ Contract.author c s' = (Returns (VRef 0%nat), s')
      ∧ Contract.book c s' = (Returns (VRef 1%nat), s')
      ∧ Contract.royalties c s' = (Returns (VBool true), s').
Proof.
  split; [vm_compute; reflexivity|].
  split; [vm_compute; reflexivity|].
  split; [vm_compute; reflexivity|].
  split; [vm_compute; reflexivity|].
  apply (bool_and_subclass_accepted after_derived 0%nat 1%nat
           (ClsUser "Novelist" ClsAuthor) (ClsUser "Novel" ClsBook) "2020-01-01" true);
    vm_compute; reflexivity.
Defined.

(** C10.  When [Author(v)] or [Book(v)] is refused, the registries are what
    they were: the error is raised before the append, and a well-formed
    state stays well-formed, so that no instance without its name or title
    is ever registered. *)
Theorem failed_construction_keeps_registry (v : value) (s : state) :
  isinstance_in (heap s) v str = false →
  (∃ s', Author.new v s = (Raises (Exception "Author.name must be a string"), s')
         ∧ Author_all s' = Author_all s
         ∧ Book_all s' = Book_all s
         ∧ Contract_all s' = Contract_all s
         ∧ (wf s = true → wf s' = true ∧ length (heap s) ∉ Author_all s'))
  ∧ (∃ s', Book.new v s = (Raises (Exception "Book.title must be a string"), s')
           ∧ Author_all s' = Author_all s
           ∧ Book_all s' = Book_all s
           ∧ Contract_all s' = Contract_all s
           ∧ (wf s = true → wf s' = true ∧ length (heap s) ∉ Book_all s')).
Proof.
  intros Hv. unfold Author.new, Book.new.
  rewrite Author_create_run, Book_create_run. cbv zeta. rewrite Hv. cbn [negb].
  split; eexists; (split; [reflexivity|]); repeat (split; [reflexivity|]);
    intros Hwf; (split; [apply wf_snoc, Hwf|]); cbn [set_heap Author_all Book_all];
    intros Hin; apply wf_spec in Hwf as (_ & HA & HB).
  - apply HA, author_ok_spec in Hin as [Ht _]. rewrite isinstance_ref in Ht.
    destruct (type_of (heap s) (length (heap s))) as [k|] eqn:Hk; [|discriminate].
    apply type_of_lt in Hk. lia.
  - apply HB, book_ok_spec in Hin as [Ht _]. rewrite isinstance_ref in Ht.
    destruct (type_of (heap s) (length (heap s))) as [k|] eqn:Hk; [|discriminate].
    apply type_of_lt in Hk. lia.
Qed.

Lemma failed_construction_keeps_registry_witness :
  isinstance_in (heap after_scenario) VNone str = false
  ∧ (∃ s', Author.new VNone after_scenario
           = (Raises (Exception "Author.name must be a string"), s')
           ∧ Author_all s' = Author_all after_scenario
           ∧ Book_all s' = Book_all after_scenario
           ∧ Contract_all s' = Contract_all after_scenario
           ∧ (wf after_scenario = true →
              wf s' = true ∧ length (heap after_scenario) ∉ Author_all s'))
  ∧ (∃ s', Book.new VNone after_scenario
           = (Raises (Exception "Book.title must be a string"), s')
           ∧ Author_all s' = Author_all after_scenario
           ∧ Book_all s' = Book_all after_scenario
           ∧ Contract_all s' = Contract_all after_scenario
           ∧ (wf after_scenario = true →
              wf s' = true ∧ length (heap after_scenario) ∉ Book_all s')).
Proof.
  split; [vm_compute; reflexivity|].
  apply (failed_construction_keeps_registry VNone after_scenario).
  vm_compute; reflexivity.
Defined.

(** * Further properties *)

(** ** Assignment that goes through *)

Lemma validated_setter_accepts (name msg : string) (t : pytype) (self : addr)
    (v : value) (s : state) (o : object) :
  isinstance_in (heap s) v t = true → heap s !! self = Some o →
  (ok ← isinstance v t;
   if negb ok then raise (Exception msg) else setattr self name v) s =
  (Returns tt, set_heap s (store (heap s) self o name v)).
Proof.
  intros Hv Ho. rewrite bind_run. unfold isinstance. rewrite Hv. cbn [negb].
  unfold setattr. rewrite Ho. reflexivity.
Qed.

Lemma instance_in_heap (h : list object) (a : addr) (c : pyclass) :
  isinstance_in h (VRef a) (cls c) = true → ∃ o, h !! a = Some o.
Proof.
  rewrite isinstance_ref. unfold type_of.
  destruct (h !! a) as [o|]; [eauto|discriminate].
Qed.

Lemma validated_setter_assigns (name msg : string) (t : pytype) (self : addr)
    (v : value) (s : state) (o : object) :
  isinstance_in (heap s) v t = true → heap s !! self = Some o →
  assigns (ok ← isinstance v t;
           if negb ok then raise (Exception msg) else setattr self name v)
          (getattr self name) self name v s.
Proof.
  intros Hv Ho. eexists. split; [apply (validated_setter_accepts _ _ _ _ _ _ o Hv Ho)|].
  split.
  { apply getattr_Some. cbn [set_heap heap]. rewrite attr_of_store by assumption.
    rewrite decide_True by auto. reflexivity. }
  do 3 (split; [reflexivity|]). split.
  - intros x. cbn [set_heap heap]. apply type_of_store, Ho.
  - intros x n Hne. cbn [set_heap heap]. rewrite attr_of_store by assumption.
    rewrite decide_False by assumption. reflexivity.
Qed.

(** X1.  On a contract, assigning an [Author] instance to [author], a
    [Book] instance to [book], a string to [date] or an integer to
    [royalties] goes through: the getter gives the new value back, nothing
    is added to a registry, and no other attribute of any instance changes. *)
Theorem contract_assignment_round_trip (s : state) (self a b : addr) (d : string)
    (r : value) :
  isinstance_in (heap s) (VRef self) (cls ClsContract) = true →
  isinstance_in (heap s) (VRef a) (cls ClsAuthor) = true →
  isinstance_in (heap s) (VRef b) (cls ClsBook) = true →
  isinstance_in (heap s) r int = true →
  assigns (Contract.author_setter self (VRef a)) (Contract.author self)
          self "_author" (VRef a) s
  ∧ assigns (Contract.book_setter self (VRef b)) (Contract.book self)
            self "_book" (VRef b) s
  ∧ assigns (Contract.date_setter self (VStr d)) (Contract.date self)
            self "_date" (VStr d) s
  ∧ assigns (Contract.royalties_setter self r) (Contract.royalties self)
            self "_royalties" r s.
Proof.
  intros Hself Ha Hb Hr. destruct (instance_in_heap _ _ _ Hself) as [o Ho].
  repeat split.
  - unfold Contract.author_setter, Contract.author.
    apply validated_setter_assigns with (o := o); assumption.
  - unfold Contract.book_setter, Contract.book.
    apply validated_setter_assigns with (o := o); assumption.
  - unfold Contract.date_setter, Contract.date.
    apply validated_setter_assigns with (o := o); [reflexivity|assumption].
  - unfold Contract.royalties_setter, Contract.royalties.
    apply validated_setter_assigns with (o := o); assumption.
Qed.

Lemma contract_assignment_round_trip_witness :
  isinstance_in (heap after_scenario) (VRef 3%nat) (cls ClsContract) = true
  ∧ isinstance_in (heap after_scenario) (VRef 1%nat) (cls ClsAuthor) = true
  ∧ isinstance_in (heap after_scenario) (VRef 2%nat) (cls ClsBook) = true
  ∧ isinstance_in (heap after_scenario) (VInt (-5)) int = true
  ∧ assigns (Contract.author_setter 3%nat (VRef 1%nat)) (Contract.author 3%nat)
            3%nat "_author" (VRef 1%nat) after_scenario
  ∧ assigns (Contract.book_setter 3%nat (VRef 2%nat)) (Contract.book 3%nat)
            3%nat "_book" (VRef 2%nat) after_scenario
  ∧ assigns (Contract.date_setter 3%nat (VStr "1999-12-31")) (Contract.date 3%nat)
            3%nat "_date" (VStr "1999-12-31") after_scenario
  ∧ assigns (Contract.royalties_setter 3%nat (VInt (-5))) (Contract.royalties 3%nat)
            3%nat "_royalties" (VInt (-5)) after_scenario.
Proof.
  do 4 (split; [vm_compute; reflexivity|]).
  apply (contract_assignment_round_trip after_scenario 3%nat 1%nat 2%nat "1999-12-31"
           (VInt (-5))); vm_compute; reflexivity.
Defined.

(** X2.  On an author, assigning a string to [name] goes through and [name]
    gives it back; on a book, the same for [title].  Nothing else changes. *)
Theorem name_title_assignment_round_trip (s : state) (a b : addr) (x : string) :
  isinstance_in (heap s) (VRef a) (cls ClsAuthor) = true →
  isinstance_in (heap s) (VRef b) (cls ClsBook) = true →
  assigns (Author.name_setter a (VStr x)) (Author.name a) a "_name" (VStr x) s
  ∧ assigns (Book.title_setter b (VStr x)) (Book.title b) b "_title" (VStr x) s.
Proof.
  intros Ha Hb. destruct (instance_in_heap _ _ _ Ha) as [oa Hoa].
  destruct (instance_in_heap _ _ _ Hb) as [ob Hob]. split.
  - unfold Author.name_setter, Author.name.
    apply validated_setter_assigns with (o := oa); [reflexivity|assumption].
  - unfold Book.title_setter, Book.title.
    apply validated_setter_assigns with (o := ob); [reflexivity|assumption].
Qed.

Lemma name_title_assignment_round_trip_witness :
  isinstance_in (heap after_scenario) (VRef 0%nat) (cls ClsAuthor) = true
  ∧ isinstance_in (heap after_scenario) (VRef 2%nat) (cls ClsBook) = true
  ∧ assigns (Author.name_setter 0%nat (VStr "Joanna")) (Author.name 0%nat)
            0%nat "_name" (VStr "Joanna") after_scenario
  ∧ assigns (Book.title_setter 2%nat (VStr "Joanna")) (Book.title 2%nat)
            2%nat "_title" (VStr "Joanna") after_scenario.
Proof.
  do 2 (split; [vm_compute; reflexivity|]).
  apply (name_title_assignment_round_trip after_scenario 0%nat 2%nat "Joanna");
    vm_compute; reflexivity.
Defined.

(** X3.  On a contract, an assignment of the wrong kind to [author],
    [book], [date] or [royalties] raises with the message of that field, and
    leaves the state, hence the contract, exactly as it was. *)
Theorem contract_assignment_refused (s : state) (self : addr) (va vb vd vr : value) :
  isinstance_in (heap s) va (cls ClsAuthor) = false →
  isinstance_in (heap s) vb (cls ClsBook) = false →
  isinstance_in (heap s) vd str = false →
  isinstance_in (heap s) vr int = false →
  Contract.author_setter self va s
  = (Raises (Exception "Contract.author must be an Author"), s)
  ∧ Contract.book_setter self vb s
    = (Raises (Exception "Contract.book must be a Book"), s)
  ∧ Contract.date_setter self vd s
    = (Raises (Exception "Contract.date must be a str"), s)
  ∧ Contract.royalties_setter self vr s
    = (Raises (Exception "Contract.royalties must be an int"), s).
Proof.
  intros Ha Hb Hd Hr. repeat split; apply validated_setter_rejects; assumption.
Qed.

Lemma contract_assignment_refused_witness :
  isinstance_in (heap after_scenario) (VRef 2%nat) (cls ClsAuthor) = false
  ∧ isinstance_in (heap after_scenario) (VRef 0%nat) (cls ClsBook) = false
  ∧ isinstance_in (heap after_scenario) (VInt 20200101) str = false
  ∧ isinstance_in (heap after_scenario) (VStr "100") int = false
  ∧ Contract.author_setter 3%nat (VRef 2%nat) after_scenario
    = (Raises (Exception "Contract.author must be an Author"), after_scenario)
  ∧ Contract.book_setter 3%nat (VRef 0%nat) after_scenario
    = (Raises (Exception "Contract.book must be a Book"), after_scenario)
  ∧ Contract.date_setter 3%nat (VInt 20200101) after_scenario
    = (Raises (Exception "Contract.date must be a str"), after_scenario)
  ∧ Contract.royalties_setter 3%nat (VStr "100") after_scenario
    = (Raises (Exception "Contract.royalties must be an int"), after_scenario).
Proof.
  do 4 (split; [vm_compute; reflexivity|]).
  apply (contract_assignment_refused after_scenario 3%nat
           (VRef 2%nat) (VRef 0%nat) (VInt 20200101) (VStr "100"));
    vm_compute; reflexivity.
Defined.

(** ** The registry seen through the queries *)

Lemma filter_ext_in {A : Type} (P Q : A → Prop) `{!∀ x, Decision (P x)}
    `{!∀ x, Decision (Q x)} (l : list A) :
  (∀ x, x ∈ l → P x ↔ Q x) → filter P l = filter Q l.
Proof.
  induction l as [|x l IH]; intros Hext; [reflexivity|].
  rewrite !filter_cons.
  rewrite IH by (intros y Hy; apply Hext, list_elem_of_further, Hy).
  pose proof (Hext x (list_elem_of_here _ _)) as Hx.
  destruct (decide (P x)), (decide (Q x)); tauto || reflexivity.
Qed.

Lemma registered_contract_lt (s : state) (c : addr) :
  wf s = true → c ∈ Contract_all s → (c < length (heap s))%nat.
Proof.
  intros Hwf Hc. destruct (wf_contract s c Hwf Hc) as (a & b & d & r & Hat).
  eapply attr_of_lt, (ca_author _ _ _ _ _ _ Hat).
Qed.

Lemma Author_total_royalties_run (s : state) (x : addr) :
  wf s = true →
  Author.total_royalties x s =
  (Returns (VInt (Zsum (royalty_of (heap s) <$>
      filter (λ c, attr_of (heap s) c "_author" = Some (VRef x)) (Contract_all s)))), s).
Proof.
  intros Hwf. unfold Author.total_royalties.
  rewrite (bind_returns _ _ _ _ _ (Author_contracts_run s x Hwf)).
  rewrite foldM_royalties; [reflexivity|].
  intros c Hc. destruct (filter_registry_contract s _ c Hwf Hc) as (a & b & d & r & Hat).
  exists r. split; [apply (ca_royalties _ _ _ _ _ _ Hat)|].
  destruct (isinstance_int_inv _ _ (ca_royalties_type _ _ _ _ _ _ Hat)) as [z Hz].
  rewrite Hz. eauto.
Qed.

Lemma Zsum_app (l1 l2 : list Z) : Zsum (l1 ++ l2) = Zsum l1 + Zsum l2.
Proof.
  unfold Zsum. induction l1 as [|z l1 IH]; simpl; [reflexivity|]. rewrite IH. lia.
Qed.

(** The registry filtered on a field, after a contract was built on top of
    the heap. *)
Lemma filter_field_snoc (s : state) (o : object) (name : string) (w : value) :
  wf s = true →
  filter (λ c, attr_of (heap s ++ [o]) c name = Some w)
         (Contract_all s ++ [length (heap s)]) =
  filter (λ c, attr_of (heap s) c name = Some w) (Contract_all s)
  ++ (if decide (ob_dict o !! name = Some w) then [length (heap s)] else []).
Proof.
  intros Hwf. rewrite list.filter_app. f_equal.
  - apply filter_ext_in. intros c Hc.
    rewrite attr_of_snoc_old by (apply registered_contract_lt; assumption).
    reflexivity.
  - rewrite filter_cons, list.filter_nil, attr_of_snoc_new.
    destruct (decide (ob_dict o !! name = Some w)); reflexivity.
Qed.

(** X4.  [a.sign_contract(b, d, r)] puts the new contract at the end of
    [a.contracts()], of [b.contracts()] and of [contracts_by_date(d)], and
    changes the answer of these queries for no other author, book or
    date. *)
Theorem sign_contract_appends (s : state) (a b : addr) (d : string) (r : Z) :
  wf s = true →
  isinstance_in (heap s) (VRef a) (cls ClsAuthor) = true →
  isinstance_in (heap s) (VRef b) (cls ClsBook) = true →
  ∃ c s',
    Author.sign_contract a (VRef b) (VStr d) (VInt r) s = (Returns c, s')
    ∧ (∀ x, ∃ cs,
         Author.contracts x s = (Returns cs, s)
         ∧ Author.contracts x s'
           = (Returns (if decide (x = a) then cs ++ [c] else cs), s'))
    ∧ (∀ y, ∃ cs,
         Book.contracts y s = (Returns cs, s)
         ∧ Book.contracts y s'
           = (Returns (if decide (y = b) then cs ++ [c] else cs), s'))
    ∧ (∀ d', ∃ cs,
         Contract.contracts_by_date (VStr d') s = (Returns cs, s)
         ∧ Contract.contracts_by_date (VStr d') s'
           = (Returns (if decide (d' = d) then cs ++ [c] else cs), s')).
Proof.
  intros Hwf Ha Hb.
  pose proof (wf_Contract_create ClsContract (VRef a) (VRef b) (VStr d) (VInt r) s
                eq_refl Hwf) as Hwf'.
  unfold after in Hwf'. unfold Author.sign_contract, Contract.new.
  rewrite (Contract_create_run ClsContract _ _ _ _ s eq_refl) in Hwf' |- *.
  cbv zeta in Hwf' |- *. rewrite Ha, Hb in Hwf' |- *.
  cbn [isinstance_in negb snd] in Hwf' |- *.
  eexists _, _. split; [reflexivity|].
  set (s' := {| heap := _ |}) in *.
  split; [|split].
  - intros x. eexists. split; [apply Author_contracts_run, Hwf|].
    rewrite (Author_contracts_run s' x Hwf'). subst s'. cbn [heap Contract_all].
    rewrite filter_field_snoc by assumption. cbn [ob_dict]. unfold contract_dict.
    f_equal. f_equal. simplify_map_eq.
    destruct (decide (x = a)) as [->|Hne].
    + rewrite decide_True by reflexivity. reflexivity.
    + rewrite decide_False by congruence. apply app_nil_r.
  - intros y. eexists. split; [apply Book_contracts_run, Hwf|].
    rewrite (Book_contracts_run s' y Hwf'). subst s'. cbn [heap Contract_all].
    rewrite filter_field_snoc by assumption. cbn [ob_dict]. unfold contract_dict.
    f_equal. f_equal. simplify_map_eq.
    destruct (decide (y = b)) as [->|Hne].
    + rewrite decide_True by reflexivity. reflexivity.
    + rewrite decide_False by congruence. apply app_nil_r.
  - intros d'. eexists. split; [apply contracts_by_date_run, Hwf|].
    rewrite (contracts_by_date_run s' d' Hwf'). subst s'. cbn [heap Contract_all].
    rewrite filter_field_snoc by assumption. cbn [ob_dict]. unfold contract_dict.
    f_equal. f_equal. simplify_map_eq.
    destruct (decide (d' = d)) as [->|Hne].
    + rewrite decide_True by reflexivity. reflexivity.
    + rewrite decide_False by congruence. apply app_nil_r.
Qed.

Lemma sign_contract_appends_witness :
  wf after_scenario = true
  ∧ isinstance_in (heap after_scenario) (VRef 0%nat) (cls ClsAuthor) = true
  ∧ isinstance_in (heap after_scenario) (VRef 2%nat) (cls ClsBook) = true
  ∧ ∃ c s',
      Author.sign_contract 0%nat (VRef 2%nat) (VStr "2021-06-30") (VInt 75) after_scenario
      = (Returns c, s')
      ∧ (∀ x, ∃ cs,
           Author.contracts x after_scenario = (Returns cs, after_scenario)
           ∧ Author.contracts x s'
             = (Returns (if decide (x = 0%nat) then cs ++ [c] else cs), s'))
      ∧ (∀ y, ∃ cs,
           Book.contracts y after_scenario = (Returns cs, after_scenario)
           ∧ Book.contracts y s'
             = (Returns (if decide (y = 2%nat) then cs ++ [c] else cs), s'))
      ∧ (∀ d', ∃ cs,
           Contract.contracts_by_date (VStr d') after_scenario = (Returns cs, after_scenario)
           ∧ Contract.contracts_by_date (VStr d') s'
             = (Returns (if decide (d' = "2021-06-30") then cs ++ [c] else cs), s')).
Proof.
  do 3 (split; [vm_compute; reflexivity|]).
  apply (sign_contract_appends after_scenario 0%nat 2%nat "2021-06-30" 75);
    vm_compute; reflexivity.
Defined.

(** X5.  Signing a contract for royalties [r] raises the signer's
    [total_royalties()] by the integer [r] stands for ([True] is [1],
    [False] is [0]; a negative [r] lowers it), and changes no other
    author's total. *)
Theorem sign_contract_adds_royalties (s : state) (a b : addr) (d : string)
    (r : value) (z : Z) :
  wf s = true →
  isinstance_in (heap s) (VRef a) (cls ClsAuthor) = true →
  isinstance_in (heap s) (VRef b) (cls ClsBook) = true →
  int_of r = Some z →
  ∃ c s',
    Author.sign_contract a (VRef b) (VStr d) r s = (Returns c, s')
    ∧ ∀ x, ∃ t,
        Author.total_royalties x s = (Returns (VInt t), s)
        ∧ Author.total_royalties x s'
          = (Returns (VInt (if decide (x = a) then t + z else t)), s').
Proof.
  intros Hwf Ha Hb Hz.
  assert (Hr : isinstance_in (heap s) r int = true)
    by (destruct r; try discriminate; reflexivity).
  pose proof (wf_Contract_create ClsContract (VRef a) (VRef b) (VStr d) r s
                eq_refl Hwf) as Hwf'.
  unfold after in Hwf'. unfold Author.sign_contract, Contract.new.
  rewrite (Contract_create_run ClsContract _ _ _ _ s eq_refl) in Hwf' |- *.
  cbv zeta in Hwf' |- *. rewrite Ha, Hb, Hr in Hwf' |- *.
  cbn [isinstance_in negb snd] in Hwf' |- *.
  eexists _, _. split; [reflexivity|].
  set (s' := {| heap := _ |}) in *.
  intros x. eexists. split; [apply Author_total_royalties_run, Hwf|].
  rewrite (Author_total_royalties_run s' x Hwf'). subst s'. cbn [heap Contract_all].
  rewrite filter_field_snoc by assumption. cbn [ob_dict]. unfold contract_dict.
  rewrite fmap_app, Zsum_app.
  set (cs := filter _ (Contract_all s)).
  assert (Hold : royalty_of (heap s ++ [Object ClsContract
             (<["_royalties":=r]> (<["_date":=VStr d]> (<["_book":=VRef b]>
                (<["_author":=VRef a]> ∅))))]) <$> cs = royalty_of (heap s) <$> cs).
  { apply list_fmap_ext. intros i c Hc. unfold royalty_of.
    rewrite attr_of_snoc_old; [reflexivity|].
    apply registered_contract_lt; [assumption|].
    apply list_elem_of_lookup_2 in Hc. unfold cs in Hc.
    apply list_elem_of_filter in Hc as [_ Hc]. exact Hc. }
  rewrite Hold. f_equal. f_equal. f_equal. simplify_map_eq.
  destruct (decide (x = a)) as [->|Hne].
  - rewrite decide_True by reflexivity. f_equal. unfold Zsum, royalty_of. simpl.
    rewrite attr_of_snoc_new. cbn [ob_dict]. simplify_map_eq. simpl. rewrite ?Hz. simpl. lia.
  - rewrite decide_False by congruence. simpl. lia.
Qed.

Lemma sign_contract_adds_royalties_witness :
  wf after_scenario = true
  ∧ isinstance_in (heap after_scenario) (VRef 0%nat) (cls ClsAuthor) = true
  ∧ isinstance_in (heap after_scenario) (VRef 2%nat) (cls ClsBook) = true
  ∧ int_of (VBool true) = Some 1
  ∧ ∃ c s',
      Author.sign_contract 0%nat (VRef 2%nat) (VStr "2021-06-30") (VBool true)
        after_scenario = (Returns c, s')
      ∧ ∀ x, ∃ t,
          Author.total_royalties x after_scenario = (Returns (VInt t), after_scenario)
          ∧ Author.total_royalties x s'
            = (Returns (VInt (if decide (x = 0%nat) then t + 1 else t)), s').
Proof.
  do 4 (split; [vm_compute; reflexivity|]).
  apply (sign_contract_adds_royalties after_scenario 0%nat 2%nat "2021-06-30"
           (VBool true) 1); vm_compute; reflexivity.
Defined.

(** ** What the queries depend on *)

Lemma field_set_run (s : state) (name : string) (cs : list addr) :
  (∀ c, c ∈ cs → is_Some (attr_of (heap s) c name)) →
  mapM (λ c, getattr c name) cs s =
  (Returns ((λ c, default VNone (attr_of (heap s) c name)) <$> cs), s).
Proof.
  intros Hcs. apply mapM_pure. intros c Hc. destruct (Hcs c Hc) as [v Hv].
  rewrite (getattr_Some _ _ _ _ Hv), Hv. reflexivity.
Qed.

Lemma Author_books_run (s : state) (x : addr) :
  wf s = true →
  Author.books x s =
  (Returns (elements (list_to_set
      ((λ c, default VNone (attr_of (heap s) c "_book")) <$>
       filter (λ c, attr_of (heap s) c "_author" = Some (VRef x)) (Contract_all s))
      : gset value)), s).
Proof.
  intros Hwf. unfold Author.books.
  rewrite (bind_returns _ _ _ _ _ (Author_contracts_run s x Hwf)).
  unfold Contract.book. rewrite bind_run, field_set_run; [reflexivity|].
  intros c Hc. destruct (filter_registry_contract s _ c Hwf Hc) as (a & b & d & r & Hat).
  rewrite (ca_book _ _ _ _ _ _ Hat). eauto.
Qed.

Lemma Book_authors_run (s : state) (x : addr) :
  wf s = true →
  Book.authors x s =
  (Returns (elements (list_to_set
      ((λ c, default VNone (attr_of (heap s) c "_author")) <$>
       filter (λ c, attr_of (heap s) c "_book" = Some (VRef x)) (Contract_all s))
      : gset value)), s).
Proof.
  intros Hwf. unfold Book.authors.
  rewrite (bind_returns _ _ _ _ _ (Book_contracts_run s x Hwf)).
  unfold Contract.author. rewrite bind_run, field_set_run; [reflexivity|].
  intros c Hc. destruct (filter_registry_contract s _ c Hwf Hc) as (a & b & d & r & Hat).
  rewrite (ca_author _ _ _ _ _ _ Hat). eauto.
Qed.

(** The queries read the contract registry and the four attributes of the
    contracts in it, and nothing else. *)
Lemma queries_agree (s s' : state) :
  wf s = true → wf s' = true →
  Contract_all s' = Contract_all s →
  (∀ c n, c ∈ Contract_all s →
          n ∈ ["_author"; "_book"; "_date"; "_royalties"] →
          attr_of (heap s') c n = attr_of (heap s) c n) →
  same_answers s s'.
Proof.
  intros Hwf Hwf' Hall Hattr x d.
  assert (Ha : ∀ w, filter (λ c, attr_of (heap s') c "_author" = Some w) (Contract_all s)
                    = filter (λ c, attr_of (heap s) c "_author" = Some w) (Contract_all s)).
  { intros w. apply filter_ext_in. intros c Hc. rewrite Hattr; [reflexivity|assumption|].
    set_solver. }
  assert (Hb : ∀ w, filter (λ c, attr_of (heap s') c "_book" = Some w) (Contract_all s)
                    = filter (λ c, attr_of (heap s) c "_book" = Some w) (Contract_all s)).
  { intros w. apply filter_ext_in. intros c Hc. rewrite Hattr; [reflexivity|assumption|].
    set_solver. }
  assert (Hd : ∀ w, filter (λ c, attr_of (heap s') c "_date" = Some w) (Contract_all s)
                    = filter (λ c, attr_of (heap s) c "_date" = Some w) (Contract_all s)).
  { intros w. apply filter_ext_in. intros c Hc. rewrite Hattr; [reflexivity|assumption|].
    set_solver. }
  assert (Hmap : ∀ (P : addr → Prop) `{!∀ c, Decision (P c)} n (B : Type)
                    (f : option value → B),
             n ∈ ["_author"; "_book"; "_date"; "_royalties"] →
             (λ c, f (attr_of (heap s') c n)) <$> filter P (Contract_all s)
             = (λ c, f (attr_of (heap s) c n)) <$> filter P (Contract_all s)).
  { intros P HP n B f Hn. apply list_fmap_ext. intros i c Hc.
    apply list_elem_of_lookup_2, list_elem_of_filter in Hc as [_ Hc].
    rewrite Hattr by assumption. reflexivity. }
  unfold result.
  rewrite !Author_contracts_run, !Author_books_run, !Author_total_royalties_run,
    !Book_contracts_run, !Book_authors_run, !contracts_by_date_run by assumption.
  rewrite Hall, !Ha, !Hb, !Hd. cbn [fst].
  rewrite (Hmap _ _ "_book" _ (default VNone)) by set_solver.
  rewrite (Hmap _ _ "_author" _ (default VNone)) by set_solver.
  unfold royalty_of.
  rewrite (Hmap _ _ "_royalties" _ (λ o, default 0 (o ≫= int_of))) by set_solver.
  repeat split; reflexivity.
Qed.

Lemma wf_store (s : state) (self : addr) (o : object) (name : string) (t : pytype)
    (v : value) :
  field_type name = Some t → isinstance_in (heap s) v t = true →
  heap s !! self = Some o → wf s = true →
  wf (set_heap s (store (heap s) self o name v)) = true.
Proof.
  intros Hname Hv Ho Hwf.
  pose proof (wf_validated_setter name "" t self v s Hname Hwf) as H.
  unfold after in H. rewrite (validated_setter_accepts _ _ _ _ _ _ o Hv Ho) in H.
  exact H.
Qed.

Lemma snoc_same_answers (s s' : state) (o : object) :
  wf s = true → wf s' = true →
  heap s' = heap s ++ [o] → Contract_all s' = Contract_all s →
  same_answers s s'.
Proof.
  intros Hwf Hwf' Hheap Hall. apply queries_agree; try assumption.
  intros c n Hc _. rewrite Hheap. apply attr_of_snoc_old.
  apply registered_contract_lt; assumption.
Qed.

(** X6.  Giving an author another name, or a book another title, changes
    the answer of no query: contracts, books, authors, royalties and the
    contracts of a date go by the instance, not by what it is called. *)
Theorem renaming_keeps_answers (s : state) (a b : addr) (x : string) :
  wf s = true →
  isinstance_in (heap s) (VRef a) (cls ClsAuthor) = true →
  isinstance_in (heap s) (VRef b) (cls ClsBook) = true →
  (∃ s', Author.name_setter a (VStr x) s = (Returns tt, s') ∧ same_answers s s')
  ∧ (∃ s', Book.title_setter b (VStr x) s = (Returns tt, s') ∧ same_answers s s').
Proof.
  intros Hwf Ha Hb. destruct (instance_in_heap _ _ _ Ha) as [oa Hoa].
  destruct (instance_in_heap _ _ _ Hb) as [ob Hob]. split.
  - eexists. split.
    { unfold Author.name_setter.
      apply (validated_setter_accepts "_name" _ str a (VStr x) s oa eq_refl Hoa). }
    apply queries_agree; [assumption| |reflexivity|].
    + apply (wf_store s a oa "_name" str (VStr x)); auto.
    + intros c n Hc Hn. cbn [set_heap heap]. rewrite attr_of_store by assumption.
      apply decide_False. intros [_ ->].
      apply list_elem_of_In in Hn. simpl in Hn. intuition discriminate.
  - eexists. split.
    { unfold Book.title_setter.
      apply (validated_setter_accepts "_title" _ str b (VStr x) s ob eq_refl Hob). }
    apply queries_agree; [assumption| |reflexivity|].
    + apply (wf_store s b ob "_title" str (VStr x)); auto.
    + intros c n Hc Hn. cbn [set_heap heap]. rewrite attr_of_store by assumption.
      apply decide_False. intros [_ ->].
      apply list_elem_of_In in Hn. simpl in Hn. intuition discriminate.
Qed.

Lemma renaming_keeps_answers_witness :
  wf after_scenario = true
  ∧ isinstance_in (heap after_scenario) (VRef 0%nat) (cls ClsAuthor) = true
  ∧ isinstance_in (heap after_scenario) (VRef 2%nat) (cls ClsBook) = true
  ∧ (∃ s', Author.name_setter 0%nat (VStr "Li") after_scenario = (Returns tt, s')
           ∧ same_answers after_scenario s')
  ∧ (∃ s', Book.title_setter 2%nat (VStr "Li") after_scenario = (Returns tt, s')
           ∧ same_answers after_scenario s').
Proof.
  do 3 (split; [vm_compute; reflexivity|]).
  apply (renaming_keeps_answers after_scenario 0%nat 2%nat "Li"); vm_compute; reflexivity.
Defined.

(** X7.  Building an author or a book, and trying to and being refused,
    changes the answer of no query about the instances there already. *)
Theorem construction_keeps_answers (s : state) (v : value) :
  wf s = true →
  same_answers s (after (Author.new v) s)
  ∧ same_answers s (after (Book.new v) s).
Proof.
  intros Hwf. split.
  - pose proof (wf_Author_create ClsAuthor v s eq_refl Hwf) as Hwf'.
    unfold Author.new, after in *. rewrite Author_create_run in Hwf' |- *.
    cbv zeta in Hwf' |- *.
    destruct (isinstance_in (heap s) v str); cbn [negb snd] in Hwf' |- *;
      eapply snoc_same_answers; try eassumption; reflexivity.
  - pose proof (wf_Book_create ClsBook v s eq_refl Hwf) as Hwf'.
    unfold Book.new, after in *. rewrite Book_create_run in Hwf' |- *.
    cbv zeta in Hwf' |- *.
    destruct (isinstance_in (heap s) v str); cbn [negb snd] in Hwf' |- *;
      eapply snoc_same_answers; try eassumption; reflexivity.
Qed.

Lemma construction_keeps_answers_witness :
  wf after_scenario = true
  ∧ same_answers after_scenario (after (Author.new (VStr "Ann")) after_scenario)
  ∧ same_answers after_scenario (after (Book.new (VStr "Ann")) after_scenario).
Proof.
  split; [vm_compute; reflexivity|].
  apply (construction_keeps_answers after_scenario (VStr "Ann")). vm_compute; reflexivity.
Defined.

(** X8.  A refused [Contract(...)] changes the answer of no query. *)
Theorem refused_contract_keeps_answers (s : state) (a b d r : value) :
  wf s = true →
  isinstance_in (heap s) a (cls ClsAuthor) = false
  ∨ isinstance_in (heap s) b (cls ClsBook) = false
  ∨ isinstance_in (heap s) d str = false
  ∨ isinstance_in (heap s) r int = false →
  same_answers s (after (Contract.new a b d r) s).
Proof.
  intros Hwf Hbad.
  pose proof (wf_Contract_create ClsContract a b d r s eq_refl Hwf) as Hwf'.
  unfold Contract.new, after in *.
  rewrite (Contract_create_run ClsContract a b d r s eq_refl) in Hwf' |- *.
  cbv zeta in Hwf' |- *.
  destruct (isinstance_in (heap s) a (cls ClsAuthor)); cbn [negb snd] in Hwf' |- *;
    [|eapply snoc_same_answers; try eassumption; reflexivity].
  destruct (isinstance_in (heap s) b (cls ClsBook)); cbn [negb snd] in Hwf' |- *;
    [|eapply snoc_same_answers; try eassumption; reflexivity].
  destruct (isinstance_in (heap s) d str); cbn [negb snd] in Hwf' |- *;
    [|eapply snoc_same_answers; try eassumption; reflexivity].
  destruct (isinstance_in (heap s) r int); cbn [negb snd] in Hwf' |- *;
    [|eapply snoc_same_answers; try eassumption; reflexivity].
  destruct Hbad as [H|[H|[H|H]]]; discriminate H.
Qed.

Lemma refused_contract_keeps_answers_witness :
  wf after_scenario = true
  ∧ (isinstance_in (heap after_scenario) (VRef 0%nat) (cls ClsAuthor) = false
     ∨ isinstance_in (heap after_scenario) (VRef 2%nat) (cls ClsBook) = false
     ∨ isinstance_in (heap after_scenario) (VStr "2020-01-01") str = false
     ∨ isinstance_in (heap after_scenario) (VStr "fifty") int = false)
  ∧ same_answers after_scenario
      (after (Contract.new (VRef 0%nat) (VRef 2%nat) (VStr "2020-01-01") (VStr "fifty"))
         after_scenario).
Proof.
  split; [vm_compute; reflexivity|].
  split; [do 3 right; vm_compute; reflexivity|].
  apply (refused_contract_keeps_answers after_scenario (VRef 0%nat) (VRef 2%nat)
           (VStr "2020-01-01") (VStr "fifty")).
  - vm_compute; reflexivity.
  - do 3 right. vm_compute; reflexivity.
Defined.

(** ** Reassigning a field of a contract *)

Lemma registered_contract_object (s : state) (c : addr) :
  wf s = true → c ∈ Contract_all s → ∃ o, heap s !! c = Some o.
Proof.
  intros Hwf Hc. apply lookup_lt_is_Some_2, registered_contract_lt; assumption.
Qed.

Lemma filter_store_same_field (s : state) (c : addr) (o : object) (name : string)
    (v w : value) (c' : addr) :
  heap s !! c = Some o →
  c' ∈ filter (λ k, attr_of (store (heap s) c o name v) k name = Some w) (Contract_all s)
  ↔ (c' = c ∧ v = w ∧ c ∈ Contract_all s)
    ∨ (c' ≠ c ∧ c' ∈ filter (λ k, attr_of (heap s) k name = Some w) (Contract_all s)).
Proof.
  intros Ho. rewrite !list_elem_of_filter, attr_of_store by assumption.
  destruct (decide (c' = c)) as [->|Hne].
  - rewrite decide_True by auto. split.
    + intros [[= ->] Hin]. left. auto.
    + intros [(_ & -> & Hin)|[Hne _]]; [auto|congruence].
  - rewrite decide_False by (intros [? _]; congruence). split.
    + intros H. right. auto.
    + intros [(-> & _)|[_ H]]; [congruence|exact H].
Qed.

Lemma filter_store_other_field (s : state) (c : addr) (o : object) (name n : string)
    (v w : value) (l : list addr) :
  heap s !! c = Some o → n ≠ name →
  filter (λ k, attr_of (store (heap s) c o name v) k n = Some w) l
  = filter (λ k, attr_of (heap s) k n = Some w) l.
Proof.
  intros Ho Hn. apply filter_ext_in. intros k _.
  rewrite attr_of_store by assumption.
  rewrite decide_False by (intros [_ ?]; congruence). reflexivity.
Qed.

(** X9.  After [c.author = a'] on a registered contract, [c] is among
    [a'.contracts()] and among the contracts of no other author; the other
    contracts stay with the author they had, and the contracts of the books
    and of the dates are what they were.  The same holds for [c.book = b']
    with books in the place of authors. *)
Theorem party_reassignment_moves_contract (s : state) (c a' b' : addr) :
  wf s = true → c ∈ Contract_all s →
  isinstance_in (heap s) (VRef a') (cls ClsAuthor) = true →
  isinstance_in (heap s) (VRef b') (cls ClsBook) = true →
  (∃ s',
     Contract.author_setter c (VRef a') s = (Returns tt, s')
     ∧ (∀ x, ∃ cs cs',
          Author.contracts x s = (Returns cs, s)
          ∧ Author.contracts x s' = (Returns cs', s')
          ∧ ∀ k, k ∈ cs' ↔ (k = c ∧ x = a') ∨ (k ≠ c ∧ k ∈ cs))
     ∧ (∀ y d,
          result (Book.contracts y) s' = result (Book.contracts y) s
          ∧ result (Contract.contracts_by_date (VStr d)) s'
            = result (Contract.contracts_by_date (VStr d)) s))
  ∧ (∃ s',
       Contract.book_setter c (VRef b') s = (Returns tt, s')
       ∧ (∀ y, ∃ cs cs',
            Book.contracts y s = (Returns cs, s)
            ∧ Book.contracts y s' = (Returns cs', s')
            ∧ ∀ k, k ∈ cs' ↔ (k = c ∧ y = b') ∨ (k ≠ c ∧ k ∈ cs))
       ∧ (∀ x d,
            result (Author.contracts x) s' = result (Author.contracts x) s
            ∧ result (Contract.contracts_by_date (VStr d)) s'
              = result (Contract.contracts_by_date (VStr d)) s)).
Proof.
  intros Hwf Hc Ha Hb. destruct (registered_contract_object s c Hwf Hc) as [o Ho].
  split.
  - pose proof (wf_store s c o "_author" _ (VRef a') eq_refl Ha Ho Hwf) as Hwf'.
    eexists. split.
    { unfold Contract.author_setter. apply (validated_setter_accepts _ _ _ _ _ _ o Ha Ho). }
    split.
    + intros x. eexists _, _. split; [apply Author_contracts_run, Hwf|].
      split; [apply Author_contracts_run, Hwf'|]. intros k. cbn [set_heap heap Contract_all].
      rewrite filter_store_same_field by assumption. split.
      * intros [(-> & [= ->] & _)|H]; auto.
      * intros [[-> ->]|H]; auto.
    + intros y d. unfold result.
      rewrite !Book_contracts_run, !contracts_by_date_run by assumption.
      cbn [set_heap heap Contract_all fst].
      rewrite !filter_store_other_field by (assumption || discriminate).
      split; reflexivity.
  - pose proof (wf_store s c o "_book" _ (VRef b') eq_refl Hb Ho Hwf) as Hwf'.
    eexists. split.
    { unfold Contract.book_setter. apply (validated_setter_accepts _ _ _ _ _ _ o Hb Ho). }
    split.
    + intros y. eexists _, _. split; [apply Book_contracts_run, Hwf|].
      split; [apply Book_contracts_run, Hwf'|]. intros k. cbn [set_heap heap Contract_all].
      rewrite filter_store_same_field by assumption. split.
      * intros [(-> & [= ->] & _)|H]; auto.
      * intros [[-> ->]|H]; auto.
    + intros x d. unfold result.
      rewrite !Author_contracts_run, !contracts_by_date_run by assumption.
      cbn [set_heap heap Contract_all fst].
      rewrite !filter_store_other_field by (assumption || discriminate).
      split; reflexivity.
Qed.

(** X10.  After [c.date = d] on a registered contract, [c] is listed under
    the date [d] and under no other date, the other contracts are listed as
    before, and the contracts of the authors and of the books are what they
    were. *)
Theorem date_reassignment_moves_contract (s : state) (c : addr) (d : string) :
  wf s = true → c ∈ Contract_all s →
  ∃ s',
    Contract.date_setter c (VStr d) s = (Returns tt, s')
    ∧ (∀ d', ∃ cs cs',
         Contract.contracts_by_date (VStr d') s = (Returns cs, s)
         ∧ Contract.contracts_by_date (VStr d') s' = (Returns cs', s')
         ∧ ∀ k, k ∈ cs' ↔ (k = c ∧ d' = d) ∨ (k ≠ c ∧ k ∈ cs))
    ∧ (∀ x,
         result (Author.contracts x) s' = result (Author.contracts x) s
         ∧ result (Book.contracts x) s' = result (Book.contracts x) s).
Proof.
  intros Hwf Hc. destruct (registered_contract_object s c Hwf Hc) as [o Ho].
  pose proof (wf_store s c o "_date" str (VStr d) eq_refl eq_refl Ho Hwf) as Hwf'.
  eexists. split.
  { unfold Contract.date_setter.
    apply (validated_setter_accepts "_date" _ str c (VStr d) s o eq_refl Ho). }
  split.
  - intros d'. eexists _, _. split; [apply contracts_by_date_run, Hwf|].
    split; [apply contracts_by_date_run, Hwf'|]. intros k. cbn [set_heap heap Contract_all].
    rewrite filter_store_same_field by assumption. split.
    + intros [(-> & [= ->] & _)|H]; auto.
    + intros [[-> ->]|H]; auto.
  - intros x. unfold result.
    rewrite !Author_contracts_run, !Book_contracts_run by assumption.
    cbn [set_heap heap Contract_all fst].
    rewrite !filter_store_other_field by (assumption || discriminate).
    split; reflexivity.
Qed.

Lemma party_reassignment_moves_contract_witness :
  wf after_scenario = true
  ∧ 3%nat ∈ Contract_all after_scenario
  ∧ isinstance_in (heap after_scenario) (VRef 1%nat) (cls ClsAuthor) = true
  ∧ isinstance_in (heap after_scenario) (VRef 2%nat) (cls ClsBook) = true
  ∧ (∃ s',
       Contract.author_setter 3%nat (VRef 1%nat) after_scenario = (Returns tt, s')
       ∧ (∀ x, ∃ cs cs',
            Author.contracts x after_scenario = (Returns cs, after_scenario)
            ∧ Author.contracts x s' = (Returns cs', s')
            ∧ ∀ k, k ∈ cs' ↔ (k = 3%nat ∧ x = 1%nat) ∨ (k ≠ 3%nat ∧ k ∈ cs))
       ∧ (∀ y d,
            result (Book.contracts y) s' = result (Book.contracts y) after_scenario
            ∧ result (Contract.contracts_by_date (VStr d)) s'
              = result (Contract.contracts_by_date (VStr d)) after_scenario))
  ∧ (∃ s',
       Contract.book_setter 3%nat (VRef 2%nat) after_scenario = (Returns tt, s')
       ∧ (∀ y, ∃ cs cs',
            Book.contracts y after_scenario = (Returns cs, after_scenario)
            ∧ Book.contracts y s' = (Returns cs', s')
            ∧ ∀ k, k ∈ cs' ↔ (k = 3%nat ∧ y = 2%nat) ∨ (k ≠ 3%nat ∧ k ∈ cs))
       ∧ (∀ x d,
            result (Author.contracts x) s' = result (Author.contracts x) after_scenario
            ∧ result (Contract.contracts_by_date (VStr d)) s'
              = result (Contract.contracts_by_date (VStr d)) after_scenario)).
Proof.
  split; [vm_compute; reflexivity|].
  split; [vm_compute; apply list_elem_of_here|].
  do 2 (split; [vm_compute; reflexivity|]).
  apply (party_reassignment_moves_contract after_scenario 3%nat 1%nat 2%nat);
    try (vm_compute; reflexivity).
  vm_compute. apply list_elem_of_here.
Defined.

Lemma date_reassignment_moves_contract_witness :
  wf after_scenario = true
  ∧ 4%nat ∈ Contract_all after_scenario
  ∧ ∃ s',
      Contract.date_setter 4%nat (VStr "2022-02-02") after_scenario = (Returns tt, s')
      ∧ (∀ d', ∃ cs cs',
           Contract.contracts_by_date (VStr d') after_scenario = (Returns cs, after_scenario)
           ∧ Contract.contracts_by_date (VStr d') s' = (Returns cs', s')
           ∧ ∀ k, k ∈ cs' ↔ (k = 4%nat ∧ d' = "2022-02-02") ∨ (k ≠ 4%nat ∧ k ∈ cs))
      ∧ (∀ x,
           result (Author.contracts x) s' = result (Author.contracts x) after_scenario
           ∧ result (Book.contracts x) s' = result (Book.contracts x) after_scenario).
Proof.
  split; [vm_compute; reflexivity|].
  split; [vm_compute; apply list_elem_of_further, list_elem_of_here|].
  apply (date_reassignment_moves_contract after_scenario 4%nat "2022-02-02").
  - vm_compute; reflexivity.
  - vm_compute. apply list_elem_of_further, list_elem_of_here.
Defined.

(** ** The relation from both sides *)

Lemma Author_books_elem (s : state) (a : addr) (v : value) :
  wf s = true →
  ∃ bs, Author.books a s = (Returns bs, s)
        ∧ (v ∈ bs ↔ ∃ c, c ∈ Contract_all s
                         ∧ attr_of (heap s) c "_author" = Some (VRef a)
                         ∧ attr_of (heap s) c "_book" = Some v).
Proof.
  intros Hwf. eexists. split; [apply Author_books_run, Hwf|].
  rewrite elem_of_elements, elem_of_list_to_set, list_elem_of_fmap.
  split.
  - intros (c & -> & Hc). exists c.
    destruct (filter_registry_contract s _ c Hwf Hc) as (a0 & b0 & d0 & r0 & Hat).
    apply list_elem_of_filter in Hc as [Ha Hc].
    rewrite (ca_book _ _ _ _ _ _ Hat). auto.
  - intros (c & Hc & Ha & Hb). exists c. split; [rewrite Hb; reflexivity|].
    apply list_elem_of_filter. auto.
Qed.

Lemma Book_authors_elem (s : state) (b : addr) (v : value) :
  wf s = true →
  ∃ au, Book.authors b s = (Returns au, s)
        ∧ (v ∈ au ↔ ∃ c, c ∈ Contract_all s
                         ∧ attr_of (heap s) c "_book" = Some (VRef b)
                         ∧ attr_of (heap s) c "_author" = Some v).
Proof.
  intros Hwf. eexists. split; [apply Book_authors_run, Hwf|].
  rewrite elem_of_elements, elem_of_list_to_set, list_elem_of_fmap.
  split.
  - intros (c & -> & Hc). exists c.
    destruct (filter_registry_contract s _ c Hwf Hc) as (a0 & b0 & d0 & r0 & Hat).
    apply list_elem_of_filter in Hc as [Hb Hc].
    rewrite (ca_author _ _ _ _ _ _ Hat). auto.
  - intros (c & Hc & Hb & Ha). exists c. split; [rewrite Ha; reflexivity|].
    apply list_elem_of_filter. auto.
Qed.

(** X11.  The relation reads the same from both sides: [b] is among
    [a.books()] exactly when [a] is among [b.authors()]. *)
Theorem books_authors_symmetric (s : state) (a b : addr) :
  wf s = true →
  ∃ bs au,
    Author.books a s = (Returns bs, s)
    ∧ Book.authors b s = (Returns au, s)
    ∧ (VRef b ∈ bs ↔ VRef a ∈ au).
Proof.
  intros Hwf.
  destruct (Author_books_elem s a (VRef b) Hwf) as (bs & Hbs & Hin).
  destruct (Book_authors_elem s b (VRef a) Hwf) as (au & Hau & Hin').
  exists bs, au. split; [exact Hbs|]. split; [exact Hau|].
  rewrite Hin, Hin'. split; intros (c & Hc & H1 & H2); exists c; auto.
Qed.

Lemma books_authors_symmetric_witness :
  wf after_scenario = true
  ∧ ∃ bs au,
      Author.books 1%nat after_scenario = (Returns bs, after_scenario)
      ∧ Book.authors 2%nat after_scenario = (Returns au, after_scenario)
      ∧ (VRef 2%nat ∈ bs ↔ VRef 1%nat ∈ au).
Proof.
  split; [vm_compute; reflexivity|].
  apply (books_authors_symmetric after_scenario 1%nat 2%nat). vm_compute; reflexivity.
Defined.

(** X12.  A registered contract is in the [contracts()] of exactly one
    author and of exactly one book: the ones its [author] and [book] give. *)
Theorem contract_has_one_author_one_book (s : state) (c : addr) :
  wf s = true → c ∈ Contract_all s →
  ∃ a b,
    Contract.author c s = (Returns (VRef a), s)
    ∧ Contract.book c s = (Returns (VRef b), s)
    ∧ (∀ x, ∃ cs, Author.contracts x s = (Returns cs, s) ∧ (c ∈ cs ↔ x = a))
    ∧ (∀ y, ∃ cs, Book.contracts y s = (Returns cs, s) ∧ (c ∈ cs ↔ y = b)).
Proof.
  intros Hwf Hc. destruct (wf_contract s c Hwf Hc) as (a & b & d & r & Hat).
  exists a, b.
  split; [apply getattr_Some, (ca_author _ _ _ _ _ _ Hat)|].
  split; [apply getattr_Some, (ca_book _ _ _ _ _ _ Hat)|].
  split.
  - intros x. eexists. split; [apply Author_contracts_run, Hwf|].
    rewrite list_elem_of_filter, (ca_author _ _ _ _ _ _ Hat). split.
    + intros [[= ->] _]. reflexivity.
    + intros ->. auto.
  - intros y. eexists. split; [apply Book_contracts_run, Hwf|].
    rewrite list_elem_of_filter, (ca_book _ _ _ _ _ _ Hat). split.
    + intros [[= ->] _]. reflexivity.
    + intros ->. auto.
Qed.

Lemma contract_has_one_author_one_book_witness :
  wf after_scenario = true
  ∧ 4%nat ∈ Contract_all after_scenario
  ∧ ∃ a b,
      Contract.author 4%nat after_scenario = (Returns (VRef a), after_scenario)
      ∧ Contract.book 4%nat after_scenario = (Returns (VRef b), after_scenario)
      ∧ (∀ x, ∃ cs, Author.contracts x after_scenario = (Returns cs, after_scenario)
                    ∧ (4%nat ∈ cs ↔ x = a))
      ∧ (∀ y, ∃ cs, Book.contracts y after_scenario = (Returns cs, after_scenario)
                    ∧ (4%nat ∈ cs ↔ y = b)).
Proof.
  split; [vm_compute; reflexivity|].
  split; [vm_compute; apply list_elem_of_further, list_elem_of_here|].
  apply (contract_has_one_author_one_book after_scenario 4%nat).
  - vm_compute; reflexivity.
  - vm_compute. apply list_elem_of_further, list_elem_of_here.
Defined.



(** ** A new author, a new book *)

Lemma filter_none {A : Type} (P : A → Prop) `{!∀ x, Decision (P x)} (l : list A) :
  (∀ x, x ∈ l → ¬ P x) → filter P l = [].
Proof.
  induction l as [|x l IH]; intros Hno; [reflexivity|].
  rewrite filter_cons, decide_False by (apply Hno, list_elem_of_here).
  apply IH. intros y Hy. apply Hno, list_elem_of_further, Hy.
Qed.

Lemma registered_author_lt (s : state) (a : addr) :
  wf s = true → a ∈ Author_all s → (a < length (heap s))%nat.
Proof.
  intros Hwf Ha. apply wf_spec in Hwf as (_ & HA & _).
  apply HA, author_ok_spec in Ha as [_ [n Hn]]. eapply attr_of_lt, Hn.
Qed.

Lemma registered_book_lt (s : state) (b : addr) :
  wf s = true → b ∈ Book_all s → (b < length (heap s))%nat.
Proof.
  intros Hwf Hb. apply wf_spec in Hwf as (_ & _ & HB).
  apply HB, book_ok_spec in Hb as [_ [n Hn]]. eapply attr_of_lt, Hn.
Qed.

Lemma instance_lt (h : list object) (a : addr) (c : pyclass) :
  isinstance_in h (VRef a) (cls c) = true → (a < length h)%nat.
Proof.
  intros H. destruct (instance_in_heap _ _ _ H) as [o Ho]. eapply lookup_lt_Some, Ho.
Qed.

(** X14.  [Author(x)] for a string [x] returns an instance that was in no
    registry, puts it last in [Author.all], and the new author has no
    contracts, no books and royalties [0].  [Book(x)] likewise returns a new
    instance, last in [Book.all], with no contracts and no authors. *)
Theorem new_author_new_book_start_empty (s : state) (x : string) :
  wf s = true →
  (∃ a s',
     Author.new (VStr x) s = (Returns a, s')
     ∧ (a ∉ Author_all s) ∧ (a ∉ Book_all s) ∧ (a ∉ Contract_all s)
     ∧ Author_all s' = Author_all s ++ [a]
     ∧ Author.contracts a s' = (Returns [], s')
     ∧ Author.books a s' = (Returns [], s')
     ∧ Author.total_royalties a s' = (Returns (VInt 0), s'))
  ∧ (∃ b s',
       Book.new (VStr x) s = (Returns b, s')
       ∧ (b ∉ Author_all s) ∧ (b ∉ Book_all s) ∧ (b ∉ Contract_all s)
       ∧ Book_all s' = Book_all s ++ [b]
       ∧ Book.contracts b s' = (Returns [], s')
       ∧ Book.authors b s' = (Returns [], s')).
Proof.
  intros Hwf.
  assert (Hfresh : (length (heap s) ∉ Author_all s) ∧ (length (heap s) ∉ Book_all s)
                   ∧ (length (heap s) ∉ Contract_all s)).
  { repeat split; intros Hin.
    - apply registered_author_lt in Hin; [lia|assumption].
    - apply registered_book_lt in Hin; [lia|assumption].
    - apply registered_contract_lt in Hin; [lia|assumption]. }
  destruct Hfresh as (HfA & HfB & HfC).
  assert (Hnone : ∀ (o : object) (name : string),
            name = "_author" ∨ name = "_book" →
            filter (λ c, attr_of (heap s ++ [o]) c name = Some (VRef (length (heap s))))
                   (Contract_all s) = []).
  { intros o name Hname. apply filter_none. intros c Hc.
    rewrite attr_of_snoc_old by (apply registered_contract_lt; assumption).
    destruct (wf_contract s c Hwf Hc) as (a0 & b0 & d0 & r0 & Hat).
    destruct Hname as [-> | ->].
    - rewrite (ca_author _ _ _ _ _ _ Hat). intros [= ->].
      pose proof (instance_lt _ _ _ (ca_author_type _ _ _ _ _ _ Hat)). lia.
    - rewrite (ca_book _ _ _ _ _ _ Hat). intros [= ->].
      pose proof (instance_lt _ _ _ (ca_book_type _ _ _ _ _ _ Hat)). lia. }
  split.
  - pose proof (wf_Author_create ClsAuthor (VStr x) s eq_refl Hwf) as Hwf'.
    unfold Author.new, after in *. rewrite Author_create_run in Hwf' |- *.
    cbv zeta in Hwf' |- *. cbn [isinstance_in negb snd] in Hwf' |- *.
    eexists _, _. split; [reflexivity|].
    do 3 (split; [assumption|]). split; [reflexivity|].
    set (s' := {| heap := _ |}) in *.
    split; [|split].
    + rewrite (Author_contracts_run s' _ Hwf'). subst s'. cbn [heap Contract_all].
      rewrite Hnone by auto. reflexivity.
    + rewrite (Author_books_run s' _ Hwf'). subst s'. cbn [heap Contract_all].
      rewrite Hnone by auto. reflexivity.
    + rewrite (Author_total_royalties_run s' _ Hwf'). subst s'. cbn [heap Contract_all].
      rewrite Hnone by auto. reflexivity.
  - pose proof (wf_Book_create ClsBook (VStr x) s eq_refl Hwf) as Hwf'.
    unfold Book.new, after in *. rewrite Book_create_run in Hwf' |- *.
    cbv zeta in Hwf' |- *. cbn [isinstance_in negb snd] in Hwf' |- *.
    eexists _, _. split; [reflexivity|].
    do 3 (split; [assumption|]). split; [reflexivity|].
    set (s' := {| heap := _ |}) in *.
    split.
    + rewrite (Book_contracts_run s' _ Hwf'). subst s'. cbn [heap Contract_all].
      rewrite Hnone by auto. reflexivity.
    + rewrite (Book_authors_run s' _ Hwf'). subst s'. cbn [heap Contract_all].
      rewrite Hnone by auto. reflexivity.
Qed.

Lemma new_author_new_book_start_empty_witness :
  wf after_scenario = true
  ∧ (∃ a s',
       Author.new (VStr "Ann") after_scenario = (Returns a, s')
       ∧ (a ∉ Author_all after_scenario) ∧ (a ∉ Book_all after_scenario)
       ∧ (a ∉ Contract_all after_scenario)
       ∧ Author_all s' = Author_all after_scenario ++ [a]
       ∧ Author.contracts a s' = (Returns [], s')
       ∧ Author.books a s' = (Returns [], s')
       ∧ Author.total_royalties a s' = (Returns (VInt 0), s'))
  ∧ (∃ b s',
       Book.new (VStr "Ann") after_scenario = (Returns b, s')
       ∧ (b ∉ Author_all after_scenario) ∧ (b ∉ Book_all after_scenario)
       ∧ (b ∉ Contract_all after_scenario)
       ∧ Book_all s' = Book_all after_scenario ++ [b]
       ∧ Book.contracts b s' = (Returns [], s')
       ∧ Book.authors b s' = (Returns [], s')).
Proof.
  split; [vm_compute; reflexivity|].
  apply (new_author_new_book_start_empty after_scenario "Ann"). vm_compute; reflexivity.
Defined.

Lemma set_listing_length (l : list value) :
  (length (elements (list_to_set l : gset value)) ≤ length l)%nat.
Proof.
  apply submseteq_length, NoDup_submseteq; [apply NoDup_elements|].
  intros v. rewrite elem_of_elements, elem_of_list_to_set. auto.
Qed.

(** X15.  An author has at most as many books as contracts, and a book at
    most as many authors as contracts. *)
Theorem no_more_books_than_contracts (s : state) (x : addr) :
  wf s = true →
  ∃ cs bs cs' au,
    Author.contracts x s = (Returns cs, s)
    ∧ Author.books x s = (Returns bs, s)
    ∧ (length bs ≤ length cs)%nat
    ∧ Book.contracts x s = (Returns cs', s)
    ∧ Book.authors x s = (Returns au, s)
    ∧ (length au ≤ length cs')%nat.
Proof.
  intros Hwf. eexists _, _, _, _.
  split; [apply Author_contracts_run, Hwf|].
  split; [apply Author_books_run, Hwf|]. split.
  { etransitivity; [apply set_listing_length|]. rewrite length_fmap. reflexivity. }
  split; [apply Book_contracts_run, Hwf|].
  split; [apply Book_authors_run, Hwf|].
  etransitivity; [apply set_listing_length|]. rewrite length_fmap. reflexivity.
Qed.

Lemma no_more_books_than_contracts_witness :
  wf after_scenario = true
  ∧ ∃ cs bs cs' au,
      Author.contracts 2%nat after_scenario = (Returns cs, after_scenario)
      ∧ Author.books 2%nat after_scenario = (Returns bs, after_scenario)
      ∧ (length bs ≤ length cs)%nat
      ∧ Book.contracts 2%nat after_scenario = (Returns cs', after_scenario)
      ∧ Book.authors 2%nat after_scenario = (Returns au, after_scenario)
      ∧ (length au ≤ length cs')%nat.
Proof.
  split; [vm_compute; reflexivity|].
  apply (no_more_books_than_contracts after_scenario 2%nat). vm_compute; reflexivity.
Defined.

(** ** What every step keeps *)

Lemma validated_setter_after (name msg : string) (t : pytype) (self : addr)
    (v : value) (s : state) :
  after (ok ← isinstance v t;
         if negb ok then raise (Exception msg) else setattr self name v) s = s
  ∨ ∃ o, heap s !! self = Some o
         ∧ after (ok ← isinstance v t;
                  if negb ok then raise (Exception msg) else setattr self name v) s
           = set_heap s (store (heap s) self o name v).
Proof.
  unfold after. rewrite bind_run. unfold isinstance.
  destruct (isinstance_in (heap s) v t); cbn [negb]; [|left; reflexivity].
  unfold setattr. destruct (heap s !! self) as [o|] eqn:Ho; [|left; reflexivity].
  right. exists o. split; reflexivity.
Qed.

Lemma type_of_snoc_old (h : list object) (o : object) (x : addr) (k : pyclass) :
  type_of h x = Some k → type_of (h ++ [o]) x = Some k.
Proof.
  intros H. rewrite type_of_snoc. pose proof (type_of_lt _ _ _ H).
  rewrite decide_False by lia. exact H.
Qed.

(** A step registers at most one instance, the one it has just built, in
    one registry, at the end. *)
Lemma step_registries (s s' : state) :
  step s s' →
  (Author_all s' = Author_all s ∧ Book_all s' = Book_all s
   ∧ Contract_all s' = Contract_all s)
  ∨ (Author_all s' = Author_all s ++ [length (heap s)] ∧ Book_all s' = Book_all s
     ∧ Contract_all s' = Contract_all s)
  ∨ (Author_all s' = Author_all s ∧ Book_all s' = Book_all s ++ [length (heap s)]
     ∧ Contract_all s' = Contract_all s)
  ∨ (Author_all s' = Author_all s ∧ Book_all s' = Book_all s
     ∧ Contract_all s' = Contract_all s ++ [length (heap s)]).
Proof.
  assert (Hset : ∀ name msg t self v,
            let s' := after (ok ← isinstance v t;
                             if negb ok then raise (Exception msg)
                             else setattr self name v) s in
            Author_all s' = Author_all s ∧ Book_all s' = Book_all s
            ∧ Contract_all s' = Contract_all s).
  { intros name msg t self v.
    destruct (validated_setter_after name msg t self v s) as [->|(o & _ & ->)];
      repeat split; reflexivity. }
  intros [k v Hk|k v Hk|k a b d r Hk|self v|self v|self v|self v|self v|self v];
    try (left; apply Hset).
  - unfold after. rewrite Author_create_run. cbv zeta.
    destruct (isinstance_in (heap s) v str); cbn [negb snd];
      [right; left|left]; repeat split; reflexivity.
  - unfold after. rewrite Book_create_run. cbv zeta.
    destruct (isinstance_in (heap s) v str); cbn [negb snd];
      [right; right; left|left]; repeat split; reflexivity.
  - unfold after. rewrite (Contract_create_run k a b d r s Hk). cbv zeta.
    destruct (isinstance_in (heap s) a (cls ClsAuthor)); cbn [negb snd];
      [|left; repeat split; reflexivity].
    destruct (isinstance_in (heap s) b (cls ClsBook)); cbn [negb snd];
      [|left; repeat split; reflexivity].
    destruct (isinstance_in (heap s) d str); cbn [negb snd];
      [|left; repeat split; reflexivity].
    destruct (isinstance_in (heap s) r int); cbn [negb snd];
      [|left; repeat split; reflexivity].
    right; right; right. repeat split; reflexivity.
Qed.

(** No step changes the class of an instance, or makes one disappear. *)
Lemma step_types (s s' : state) (x : addr) (k : pyclass) :
  step s s' → type_of (heap s) x = Some k → type_of (heap s') x = Some k.
Proof.
  assert (Hset : ∀ name msg t self v,
            type_of (heap s) x = Some k →
            type_of (heap (after (ok ← isinstance v t;
                                  if negb ok then raise (Exception msg)
                                  else setattr self name v) s)) x = Some k).
  { intros name msg t self v Hx.
    destruct (validated_setter_after name msg t self v s) as [->|(o & Ho & ->)];
      [exact Hx|].
    cbn [set_heap heap]. rewrite type_of_store by assumption. exact Hx. }
  intros [k' v Hk|k' v Hk|k' a b d r Hk|self v|self v|self v|self v|self v|self v] Hx;
    try (apply Hset, Hx).
  - unfold after. rewrite Author_create_run. cbv zeta.
    destruct (isinstance_in (heap s) v str); cbn [negb snd set_heap heap];
      apply type_of_snoc_old, Hx.
  - unfold after. rewrite Book_create_run. cbv zeta.
    destruct (isinstance_in (heap s) v str); cbn [negb snd set_heap heap];
      apply type_of_snoc_old, Hx.
  - unfold after. rewrite (Contract_create_run k' a b d r s Hk). cbv zeta.
    destruct (isinstance_in (heap s) a (cls ClsAuthor)); cbn [negb snd set_heap heap];
      [|apply type_of_snoc_old, Hx].
    destruct (isinstance_in (heap s) b (cls ClsBook)); cbn [negb snd set_heap heap];
      [|apply type_of_snoc_old, Hx].
    destruct (isinstance_in (heap s) d str); cbn [negb snd set_heap heap];
      [|apply type_of_snoc_old, Hx].
    destruct (isinstance_in (heap s) r int); cbn [negb snd set_heap heap];
      apply type_of_snoc_old, Hx.
Qed.

Lemma NoDup_snoc_fresh (l : list addr) (n : addr) :
  NoDup l → n ∉ l → NoDup (l ++ [n]).
Proof.
  intros Hl Hn. apply list.NoDup_app. split; [exact Hl|]. split.
  - intros x Hx Hx'. apply list_elem_of_singleton in Hx' as ->. contradiction.
  - apply NoDup_singleton.
Qed.

Lemma reachable_scenario : reachable after_scenario.
Proof.
  pose (s1 := after (Author.create ClsAuthor (VStr "Jo")) initial).
  pose (s2 := after (Author.create ClsAuthor (VStr "Li")) s1).
  pose (s3 := after (Book.create ClsBook (VStr "X")) s2).
  pose (s4 := after (Contract.create ClsContract (VRef 0%nat) (VRef 2%nat)
                       (VStr "2020-01-01") (VInt 100)) s3).
  pose (s5 := after (Contract.create ClsContract (VRef 1%nat) (VRef 2%nat)
                       (VStr "2020-01-01") (VInt 200)) s4).
  assert (Heq : after_scenario = s5) by (vm_compute; reflexivity).
  rewrite Heq. unfold reachable.
  apply rtc_r with s4; [|apply step_Contract; reflexivity].
  apply rtc_r with s3; [|apply step_Contract; reflexivity].
  apply rtc_r with s2; [|apply step_Book; reflexivity].
  apply rtc_r with s1; [|apply step_Author; reflexivity].
  apply rtc_once, step_Author; reflexivity.
Qed.

(** X16.  In every state the module can be brought to, each registered
    instance has its validated attributes, no instance is registered twice,
    and no instance is in two registries. *)
Theorem reachable_registries_sound (s : state) :
  reachable s →
  wf s = true
  ∧ NoDup (Author_all s) ∧ NoDup (Book_all s) ∧ NoDup (Contract_all s)
  ∧ (∀ x, x ∈ Author_all s → x ∉ Book_all s)
  ∧ (∀ x, x ∈ Author_all s → x ∉ Contract_all s)
  ∧ (∀ x, x ∈ Book_all s → x ∉ Contract_all s).
Proof.
  revert s. apply (rtc_ind_r (R := step) _ initial).
  { split; [reflexivity|]. simpl. repeat split; try apply NoDup_nil_2;
      intros x Hx; inversion Hx. }
  intros s s' _ Hstep (Hwf & HA & HB & HC & HAB & HAC & HBC).
  split; [eapply step_wf; eassumption|].
  assert (HfA : length (heap s) ∉ Author_all s)
    by (intros Hin; apply registered_author_lt in Hin; [lia|assumption]).
  assert (HfB : length (heap s) ∉ Book_all s)
    by (intros Hin; apply registered_book_lt in Hin; [lia|assumption]).
  assert (HfC : length (heap s) ∉ Contract_all s)
    by (intros Hin; apply registered_contract_lt in Hin; [lia|assumption]).
  destruct (step_registries s s' Hstep)
    as [(-> & -> & ->)|[(-> & -> & ->)|[(-> & -> & ->)|(-> & -> & ->)]]].
  - auto 10.
  - split; [apply NoDup_snoc_fresh; assumption|]. do 2 (split; [assumption|]).
    split; [|split; [|assumption]]; intros x Hx;
      apply elem_of_app in Hx as [Hx|Hx]; auto;
      apply list_elem_of_singleton in Hx as ->; assumption.
  - split; [assumption|]. split; [apply NoDup_snoc_fresh; assumption|].
    split; [assumption|]. split; [|split; [assumption|]].
    + intros x Hx Hx'. apply elem_of_app in Hx' as [Hx'|Hx']; [eapply HAB; eassumption|].
      apply list_elem_of_singleton in Hx' as ->. contradiction.
    + intros x Hx. apply elem_of_app in Hx as [Hx|Hx]; auto.
      apply list_elem_of_singleton in Hx as ->. assumption.
  - do 2 (split; [assumption|]). split; [apply NoDup_snoc_fresh; assumption|].
    split; [assumption|]. split.
    + intros x Hx Hx'. apply elem_of_app in Hx' as [Hx'|Hx']; [eapply HAC; eassumption|].
      apply list_elem_of_singleton in Hx' as ->. contradiction.
    + intros x Hx Hx'. apply elem_of_app in Hx' as [Hx'|Hx']; [eapply HBC; eassumption|].
      apply list_elem_of_singleton in Hx' as ->. contradiction.
Qed.

Lemma reachable_registries_sound_witness :
  reachable after_scenario
  ∧ wf after_scenario = true
  ∧ NoDup (Author_all after_scenario) ∧ NoDup (Book_all after_scenario)
  ∧ NoDup (Contract_all after_scenario)
  ∧ (∀ x, x ∈ Author_all after_scenario → x ∉ Book_all after_scenario)
  ∧ (∀ x, x ∈ Author_all after_scenario → x ∉ Contract_all after_scenario)
  ∧ (∀ x, x ∈ Book_all after_scenario → x ∉ Contract_all after_scenario).
Proof.
  split; [apply reachable_scenario|].
  apply (reachable_registries_sound after_scenario), reachable_scenario.
Defined.

(** X17.  The registries only grow at the end, and an instance keeps its
    class: whatever the client does next, each registry of now is a prefix
    of the registry of then, and [isinstance] answers that held keep
    holding. *)
Theorem registries_append_only (s s' : state) :
  rtc step s s' →
  Author_all s `prefix_of` Author_all s'
  ∧ Book_all s `prefix_of` Book_all s'
  ∧ Contract_all s `prefix_of` Contract_all s'
  ∧ (∀ v t, isinstance_in (heap s) v t = true → isinstance_in (heap s') v t = true).
Proof.
  revert s'. apply (rtc_ind_r (R := step) _ s).
  { repeat split; try reflexivity. auto. }
  intros s1 s2 _ Hstep (HA & HB & HC & Hinst).
  assert (Hinst' : ∀ v t, isinstance_in (heap s1) v t = true →
                          isinstance_in (heap s2) v t = true).
  { intros v t. destruct t as [| |c], v as [|b|z|x|a]; try (intros; assumption).
    rewrite !isinstance_ref.
    destruct (type_of (heap s1) a) as [k|] eqn:Hk; [|discriminate].
    rewrite (step_types s1 s2 a k Hstep Hk). auto. }
  destruct (step_registries s1 s2 Hstep)
    as [(-> & -> & ->)|[(-> & -> & ->)|[(-> & -> & ->)|(-> & -> & ->)]]];
    repeat split; auto using prefix_app_r.
Qed.

Lemma registries_append_only_witness :
  rtc step initial after_scenario
  ∧ Author_all initial `prefix_of` Author_all after_scenario
  ∧ Book_all initial `prefix_of` Book_all after_scenario
  ∧ Contract_all initial `prefix_of` Contract_all after_scenario
  ∧ (∀ v t, isinstance_in (heap initial) v t = true →
            isinstance_in (heap after_scenario) v t = true).
Proof.
  split; [apply reachable_scenario|].
  apply (registries_append_only initial after_scenario), reachable_scenario.
Defined.

(** ** Changing the royalties of a contract *)

Lemma Zsum_update (f f' : addr → Z) (c : addr) (l : list addr) :
  NoDup l → (∀ k, k ≠ c → f' k = f k) →
  Zsum (f' <$> l) = Zsum (f <$> l) + (if decide (c ∈ l) then f' c - f c else 0).
Proof.
  intros Hnd Hother. induction l as [|k l IH].
  - rewrite decide_False by (intros H; inversion H). reflexivity.
  - apply list.NoDup_cons in Hnd as [Hk Hnd]. specialize (IH Hnd).
    rewrite !fmap_cons. unfold Zsum in *. cbn [foldr]. rewrite IH.
    destruct (decide (k = c)) as [->|Hne].
    + rewrite (decide_False (P := c ∈ l)) by assumption.
      rewrite decide_True by apply list_elem_of_here. lia.
    + rewrite (Hother k Hne).
      destruct (decide (c ∈ l)) as [Hin|Hnin].
      * rewrite decide_True by (apply list_elem_of_further; assumption). lia.
      * rewrite decide_False; [lia|].
        intros Hin. apply elem_of_cons in Hin as [->|Hin]; [congruence|contradiction].
Qed.

(** X18.  After [c.royalties = r] on a registered contract, the total of
    the contract's author moves by the difference between the new and the
    old royalties, and the total of every other author is what it was. *)
Theorem royalties_reassignment_shifts_total (s : state) (c : addr) (r : value) (z : Z) :
  wf s = true → NoDup (Contract_all s) → c ∈ Contract_all s →
  int_of r = Some z →
  ∃ s',
    Contract.royalties_setter c r s = (Returns tt, s')
    ∧ ∀ x, ∃ t,
        Author.total_royalties x s = (Returns (VInt t), s)
        ∧ Author.total_royalties x s'
          = (Returns (VInt (if decide (attr_of (heap s) c "_author" = Some (VRef x))
                            then t - royalty_of (heap s) c + z else t)), s').
Proof.
  intros Hwf Hnd Hc Hz.
  assert (Hr : isinstance_in (heap s) r int = true)
    by (destruct r; try discriminate; reflexivity).
  destruct (registered_contract_object s c Hwf Hc) as [o Ho].
  pose proof (wf_store s c o "_royalties" int r eq_refl Hr Ho Hwf) as Hwf'.
  eexists. split.
  { unfold Contract.royalties_setter.
    apply (validated_setter_accepts "_royalties" _ int c r s o Hr Ho). }
  intros x. eexists. split; [apply Author_total_royalties_run, Hwf|].
  rewrite (Author_total_royalties_run _ x Hwf'). cbn [set_heap heap Contract_all].
  rewrite filter_store_other_field by (assumption || discriminate).
  set (l := filter _ (Contract_all s)).
  rewrite (Zsum_update (royalty_of (heap s)) _ c l).
  - f_equal. f_equal. f_equal.
    assert (Hnew : royalty_of (store (heap s) c o "_royalties" r) c = z).
    { unfold royalty_of. rewrite attr_of_store by assumption.
      rewrite decide_True by auto. simpl. rewrite Hz. reflexivity. }
    rewrite Hnew. unfold l.
    destruct (decide (attr_of (heap s) c "_author" = Some (VRef x))) as [Hx|Hx].
    + rewrite decide_True by (apply list_elem_of_filter; auto). lia.
    + rewrite decide_False; [lia|]. intros Hin.
      apply list_elem_of_filter in Hin as [Hin _]. contradiction.
  - apply list.NoDup_filter, Hnd.
  - intros k Hk. unfold royalty_of. rewrite attr_of_store by assumption.
    rewrite decide_False by (intros [? _]; congruence). reflexivity.
Qed.

Lemma royalties_reassignment_shifts_total_witness :
  wf after_scenario = true
  ∧ NoDup (Contract_all after_scenario)
  ∧ 3%nat ∈ Contract_all after_scenario
  ∧ int_of (VInt 150) = Some 150
  ∧ ∃ s',
      Contract.royalties_setter 3%nat (VInt 150) after_scenario = (Returns tt, s')
      ∧ ∀ x, ∃ t,
          Author.total_royalties x after_scenario = (Returns (VInt t), after_scenario)
          ∧ Author.total_royalties x s'
            = (Returns (VInt (if decide (attr_of (heap after_scenario) 3%nat "_author"
                                         = Some (VRef x))
                              then t - royalty_of (heap after_scenario) 3%nat + 150
                              else t)), s').
Proof.
  split; [vm_compute; reflexivity|].
  split; [apply (bool_decide_unpack _); vm_compute; exact I|].
  split; [vm_compute; apply list_elem_of_here|].
  split; [reflexivity|].
  apply (royalties_reassignment_shifts_total after_scenario 3%nat (VInt 150) 150).
  - vm_compute; reflexivity.
  - apply (bool_decide_unpack _). vm_compute. exact I.
  - vm_compute. apply list_elem_of_here.
  - reflexivity.
Defined.

(** ** Signing refused, and reading what is registered *)

(** X19.  [a.sign_contract(book, date, royalties)] on an author never fails
    on the author: it raises for the book, else for the date, else for the
    royalties, whichever is first of the wrong kind, and then no registry
    has changed. *)
Theorem sign_contract_refused (s : state) (a : addr) (b d r : value) :
  isinstance_in (heap s) (VRef a) (cls ClsAuthor) = true →
  isinstance_in (heap s) b (cls ClsBook) = false
  ∨ isinstance_in (heap s) d str = false
  ∨ isinstance_in (heap s) r int = false →
  ∃ s',
    Author.sign_contract a b d r s =
    (Raises (Exception
       (if negb (isinstance_in (heap s) b (cls ClsBook)) then
          "Contract.book must be a Book"
        else if negb (isinstance_in (heap s) d str) then
          "Contract.date must be a str"
        else "Contract.royalties must be an int")), s')
    ∧ Author_all s' = Author_all s
    ∧ Book_all s' = Book_all s
    ∧ Contract_all s' = Contract_all s.
Proof.
  intros Ha Hbad. unfold Author.sign_contract, Contract.new.
  rewrite (Contract_create_run ClsContract _ _ _ _ s eq_refl). cbv zeta.
  rewrite Ha. cbn [negb].
  destruct (isinstance_in (heap s) b (cls ClsBook)); cbn [negb];
    [|eexists; repeat split; reflexivity].
  destruct (isinstance_in (heap s) d str); cbn [negb];
    [|eexists; repeat split; reflexivity].
  destruct (isinstance_in (heap s) r int); cbn [negb];
    [|eexists; repeat split; reflexivity].
  destruct Hbad as [H|[H|H]]; discriminate H.
Qed.

Lemma sign_contract_refused_witness :
  isinstance_in (heap after_scenario) (VRef 0%nat) (cls ClsAuthor) = true
  ∧ (isinstance_in (heap after_scenario) (VRef 2%nat) (cls ClsBook) = false
     ∨ isinstance_in (heap after_scenario) VNone str = false
     ∨ isinstance_in (heap after_scenario) (VStr "ten") int = false)
  ∧ ∃ s',
      Author.sign_contract 0%nat (VRef 2%nat) VNone (VStr "ten") after_scenario =
      (Raises (Exception
         (if negb (isinstance_in (heap after_scenario) (VRef 2%nat) (cls ClsBook)) then
            "Contract.book must be a Book"
          else if negb (isinstance_in (heap after_scenario) VNone str) then
            "Contract.date must be a str"
          else "Contract.royalties must be an int")), s')
      ∧ Author_all s' = Author_all after_scenario
      ∧ Book_all s' = Book_all after_scenario
      ∧ Contract_all s' = Contract_all after_scenario.
Proof.
  split; [vm_compute; reflexivity|].
  split; [right; left; vm_compute; reflexivity|].
  apply (sign_contract_refused after_scenario 0%nat (VRef 2%nat) VNone (VStr "ten")).
  - vm_compute; reflexivity.
  - right; left. vm_compute; reflexivity.
Defined.

(** X20.  In every state the module can be brought to, the getters of a
    registered instance raise nothing and give values of the validated
    kinds: [name] and [title] a string; [author] an instance of [Author],
    [book] an instance of [Book], [date] a string, [royalties] an integer
    or a boolean. *)
Theorem registered_getters_typed (s : state) :
  reachable s →
  (∀ a, a ∈ Author_all s → ∃ n, Author.name a s = (Returns (VStr n), s))
  ∧ (∀ b, b ∈ Book_all s → ∃ t, Book.title b s = (Returns (VStr t), s))
  ∧ (∀ c, c ∈ Contract_all s →
       ∃ a b d r z,
         Contract.author c s = (Returns (VRef a), s)
         ∧ isinstance_in (heap s) (VRef a) (cls ClsAuthor) = true
         ∧ Contract.book c s = (Returns (VRef b), s)
         ∧ isinstance_in (heap s) (VRef b) (cls ClsBook) = true
         ∧ Contract.date c s = (Returns (VStr d), s)
         ∧ Contract.royalties c s = (Returns r, s)
         ∧ int_of r = Some z).
Proof.
  intros Hreach. pose proof (reachable_wf s Hreach) as Hwf.
  pose proof Hwf as Hwf0. apply wf_spec in Hwf0 as (_ & HA & HB).
  split; [|split].
  - intros a Ha. apply HA, author_ok_spec in Ha as [_ [n Hn]].
    exists n. apply getattr_Some, Hn.
  - intros b Hb. apply HB, book_ok_spec in Hb as [_ [t Ht]].
    exists t. apply getattr_Some, Ht.
  - intros c Hc. destruct (wf_contract s c Hwf Hc) as (a & b & d & r & Hat).
    destruct (isinstance_int_inv _ _ (ca_royalties_type _ _ _ _ _ _ Hat)) as [z Hz].
    exists a, b, d, r, z.
    split; [apply getattr_Some, (ca_author _ _ _ _ _ _ Hat)|].
    split; [apply (ca_author_type _ _ _ _ _ _ Hat)|].
    split; [apply getattr_Some, (ca_book _ _ _ _ _ _ Hat)|].
    split; [apply (ca_book_type _ _ _ _ _ _ Hat)|].
    split; [apply getattr_Some, (ca_date _ _ _ _ _ _ Hat)|].
    split; [apply getattr_Some, (ca_royalties _ _ _ _ _ _ Hat)|].
    exact Hz.
Qed.

Lemma registered_getters_typed_witness :
  reachable after_scenario
  ∧ (∀ a, a ∈ Author_all after_scenario →
          ∃ n, Author.name a after_scenario = (Returns (VStr n), after_scenario))
  ∧ (∀ b, b ∈ Book_all after_scenario →
          ∃ t, Book.title b after_scenario = (Returns (VStr t), after_scenario))
  ∧ (∀ c, c ∈ Contract_all after_scenario →
       ∃ a b d r z,
         Contract.author c after_scenario = (Returns (VRef a), after_scenario)
         ∧ isinstance_in (heap after_scenario) (VRef a) (cls ClsAuthor) = true
         ∧ Contract.book c after_scenario = (Returns (VRef b), after_scenario)
         ∧ isinstance_in (heap after_scenario) (VRef b) (cls ClsBook) = true
         ∧ Contract.date c after_scenario = (Returns (VStr d), after_scenario)
         ∧ Contract.royalties c after_scenario = (Returns r, after_scenario)
         ∧ int_of r = Some z).
Proof.
  split; [apply reachable_scenario|].
  apply (registered_getters_typed after_scenario), reachable_scenario.
Defined.

(** * The scenario, run *)

(** After [jo] and [li] each signed for [bookX] on the same day:
    [bookX.authors()] is the set of the two, the query by date lists both
    contracts in the order they were made, and [jo] earns [100]. *)
Example scenario_authors :
  ∃ au, result (Book.authors 2%nat) after_scenario = Returns au
        ∧ au ≡ₚ [VRef 0%nat; VRef 1%nat].
Proof.
  eexists. split; [vm_compute; reflexivity|]. apply Permutation_swap.
Qed.

Example scenario_by_date :
  result (Contract.contracts_by_date (VStr "2020-01-01")) after_scenario
  = Returns [3%nat; 4%nat].
Proof. vm_compute. reflexivity. Qed.

Example scenario_total_royalties :
  result (Author.total_royalties 0%nat) after_scenario = Returns (VInt 100).
Proof. vm_compute. reflexivity. Qed.

Example scenario_wf : wf after_scenario = true.
Proof. vm_compute. reflexivity. Qed.

(** Two books with the same title are two books. *)
Example same_title_two_books :
  ∃ bs,
    result (a ← Author.new (VStr "Jo");
            b1 ← Book.new (VStr "X");
            b2 ← Book.new (VStr "X");
            Author.sign_contract a (VRef b1) (VStr "2020-01-01") (VInt 1);;
            Author.sign_contract a (VRef b2) (VStr "2020-01-01") (VInt 2);;
            Author.sign_contract a (VRef b1) (VStr "2021-01-01") (VInt 3);;
            Author.books a) initial = Returns bs
    ∧ length bs = 2%nat.
Proof. eexists. split; vm_compute; reflexivity. Qed.

(** Royalties given as booleans count as [1] and [0]. *)
Example boolean_royalties_total :
  result (a ← Author.new (VStr "Jo");
          b ← Book.new (VStr "X");
          Author.sign_contract a (VRef b) (VStr "2020-01-01") (VBool true);;
          Author.sign_contract a (VRef b) (VStr "2020-01-02") (VInt 41);;
          Author.total_royalties a) initial = Returns (VInt 42).
Proof. vm_compute. reflexivity. Qed.
